(** * VAIL: the variational discriminator bottleneck of tf2rl

    A shallow embedding of [tf2rl/algos/vail.py]: the [Discriminator] model
    with its stochastic latent layer, the KL regularizer [_compute_kl], the
    training step [_train_body] with its dual-ascent update of the
    regularization coefficient, and reward inference.

    Numbers.  The program computes on [float32] tensors.  The embedding
    computes on the real numbers [R]: every TensorFlow operation is read as
    the exact operation it approximates, so the statements below are about
    the arithmetic the program is written in, not about rounding, overflow
    or NaN.  [tf.math.log] is [ln], which the library extends by [0] outside
    the positive reals.

    Tensors.  A rank-2 tensor is a list of rows, a rank-1 tensor a list of
    numbers; [ndarray] joins the two where the program inspects the rank.
    Operations that TensorFlow refuses on incompatible shapes return [Err].

    Effects.  A call runs in a state-and-error monad over a [World]: the
    [VAIL] object, TensorFlow's random generator, the summary writer, and a
    journal of the writes to the object's variables.  An exception leaves
    the world as it was when it was raised. *)

From Stdlib Require Import String.
From Stdlib Require Import Reals Lra Lia List Bool PeanoNat.
Import ListNotations.

Local Open Scope R_scope.

(** ** Errors and results *)

Inductive error : Type :=
| InvalidArgumentError (msg : string).

Inductive result (A : Type) : Type :=
| OK (a : A)
| Err (e : error).

Arguments OK {A} a.
Arguments Err {A} e.

Definition is_err {A : Type} (r : result A) : bool :=
  match r with OK _ => false | Err _ => true end.

Definition rbind {A B : Type} (r : result A) (k : A -> result B) : result B :=
  match r with
  | OK a => k a
  | Err e => Err e
  end.

Declare Scope result_scope.
Delimit Scope result_scope with res.

Notation "x <~ r ; k" := (rbind r (fun x => k))
  (at level 61, r at next level, right associativity) : result_scope.

(** ** Tensors *)

Definition vector : Type := list R.
Definition matrix : Type := list (list R).

Inductive ndarray : Type :=
| Rank1 (v : vector)
| Rank2 (m : matrix).

Definition ndim (a : ndarray) : nat :=
  match a with
  | Rank1 _ => 1
  | Rank2 _ => 2
  end.

(** [x.shape] of a rank-2 tensor: the number of rows and the width of a row. *)
Definition shape (m : matrix) : nat * nat :=
  (length m, length (hd [] m)).

(** The widths of the rows, one per row: two tensors combine elementwise
    when these agree. *)
Definition row_widths (m : matrix) : list nat := map (@length R) m.

Fixpoint nats_eqb (u v : list nat) : bool :=
  match u, v with
  | [], [] => true
  | x :: u', y :: v' => Nat.eqb x y && nats_eqb u' v'
  | _, _ => false
  end.

Definition same_shape (a b : matrix) : bool :=
  nats_eqb (row_widths a) (row_widths b).

Definition map2 {A B C : Type} (f : A -> B -> C) (u : list A) (v : list B)
  : list C :=
  map (fun p => f (fst p) (snd p)) (combine u v).

Definition sum (v : vector) : R := fold_right Rplus 0 v.

Module np.

(** [np.expand_dims(a, axis=0)].  Arrays of rank 3 are outside
    [ndarray]; the program expands rank-1 arrays only. *)
Definition expand_dims0 (a : ndarray) : result ndarray :=
  match a with
  | Rank1 v => OK (Rank2 [v])
  | Rank2 _ => Err (InvalidArgumentError "expand_dims : rank 3 is not represented")
  end.

End np.

Module tf.

(** Elementwise operations between a tensor and a Python scalar. *)
Definition pointwise (f : R -> R) (m : matrix) : matrix := map (map f) m.

(** Elementwise binary operations between two tensors of one shape. *)
Definition elementwise (f : R -> R -> R) (a b : matrix) : result matrix :=
  if same_shape a b then OK (map2 (map2 f) a b)
  else Err (InvalidArgumentError "Incompatible shapes").

Definition add : matrix -> matrix -> result matrix := elementwise Rplus.
Definition multiply : matrix -> matrix -> result matrix := elementwise Rmult.

Definition exp : matrix -> matrix := pointwise Rtrigo_def.exp.
Definition log : matrix -> matrix := pointwise ln.
Definition square : matrix -> matrix := pointwise (fun x => x * x).
Definition negative : matrix -> matrix := pointwise Ropp.

(** [tf.clip_by_value(t, lo, hi)] is [maximum(minimum(t, hi), lo)]. *)
Definition clip_by_value (m : matrix) (lo hi : R) : matrix :=
  pointwise (fun x => Rmax (Rmin x hi) lo) m.

(** [tf.reduce_sum(t, axis=-1)] *)
Definition reduce_sum_last (m : matrix) : vector := map sum m.

(** [tf.reduce_mean] over every element.  Over no element TensorFlow
    returns NaN, which the reals do not have: there the value below, [0 / 0],
    stands for no value of the program. *)
Definition reduce_mean1 (v : vector) : R := sum v / INR (length v).
Definition reduce_mean (m : matrix) : R := reduce_mean1 (concat m).

(** [tf.cast(t >= c, tf.float32)] and [tf.cast(t < c, tf.float32)] *)
Definition cast_ge (c : R) (m : matrix) : matrix :=
  pointwise (fun x => if Rle_dec c x then 1 else 0) m.
Definition cast_lt (c : R) (m : matrix) : matrix :=
  pointwise (fun x => if Rlt_dec x c then 1 else 0) m.

Definition maximum : R -> R -> R := Rmax.

(** [tf.concat(inputs, axis=1)]: every input has rank 2 and the inputs
    have the same number of rows; rows are joined left to right. *)
Definition concat_rows (a b : matrix) : result matrix :=
  if Nat.eqb (length a) (length b) then OK (map2 (@app R) a b)
  else Err (InvalidArgumentError "ConcatOp : Dimension 0 in both shapes must be equal").

Fixpoint concat_onto (acc : matrix) (inputs : list ndarray) : result matrix :=
  match inputs with
  | [] => OK acc
  | Rank2 m :: rest =>
      match concat_rows acc m with
      | OK acc' => concat_onto acc' rest
      | Err e => Err e
      end
  | Rank1 _ :: _ =>
      Err (InvalidArgumentError "ConcatOp : Expected concatenating dimensions in the range [-1, 1)")
  end.

Definition concat_axis1 (inputs : list ndarray) : result matrix :=
  match inputs with
  | [] => Err (InvalidArgumentError "ConcatOp : List of tensors is empty")
  | Rank2 m :: rest => concat_onto m rest
  | Rank1 _ :: _ =>
      Err (InvalidArgumentError "ConcatOp : Expected concatenating dimensions in the range [-1, 1)")
  end.

End tf.

(** ** Dense layers

    [tensorflow.keras.layers.Dense]: [activation(inputs @ kernel + bias)],
    with a kernel of [in_dim] rows and [units] columns.  The layer refuses an
    input whose last dimension is not [in_dim]. *)

Inductive activation : Type := relu | linear | sigmoid.

Definition activate (a : activation) (x : R) : R :=
  match a with
  | relu => Rmax x 0
  | linear => x
  | sigmoid => 1 / (1 + exp (- x))
  end.

Record Dense : Type := {
  kernel : matrix;
  bias : vector;
  activation_fn : activation
}.

(** One row of [inputs @ kernel]: the sum of the kernel's rows, each scaled
    by the matching input feature. *)
Definition row_matmul (r : vector) (K : matrix) (units : nat) : vector :=
  fold_right (fun p acc => map2 Rplus (map (Rmult (fst p)) (snd p)) acc)
             (repeat 0 units) (combine r K).

Definition Dense_call (d : Dense) (inputs : matrix) : result matrix :=
  if forallb (fun r => Nat.eqb (length r) (length (kernel d))) inputs
  then OK (map (fun r =>
                  map (activate (activation_fn d))
                      (map2 Rplus (row_matmul r (kernel d) (length (bias d)))
                            (bias d)))
               inputs)
  else Err (InvalidArgumentError "Matrix size-incompatible").

(** [DenseClass = SNDense if enable_sn else Dense]: the discriminator is
    written against whichever layer class was chosen at construction.  All it
    uses of a layer is its call, which maps a batch to a batch of as many
    rows. *)
Class DenseClass (L : Type) : Type := {
  layer_call : L -> matrix -> result matrix;
  layer_call_rows :
    forall (l : L) (x y : matrix), layer_call l x = OK y -> length y = length x
}.

#[export, refine] Instance Dense_DenseClass : DenseClass Dense :=
  {| layer_call := Dense_call |}.
Proof.
  intros d x y. unfold Dense_call.
  destruct (forallb _ x); [|discriminate].
  intros [= <-]. apply length_map.
Defined.

(** ** The discriminator's parameters *)

Record Discriminator (L : Type) : Type := {
  l1 : L;
  l2 : L;
  l_mean : L;
  l_logstd : L;
  l3 : L
}.

Arguments l1 {L} d.
Arguments l2 {L} d.
Arguments l_mean {L} d.
Arguments l_logstd {L} d.
Arguments l3 {L} d.

Definition LOG_SIG_CAP_MAX : R := 2.
Definition LOG_SIG_CAP_MIN : R := -20.
Definition EPS : R := 1e-6.

(** ** TensorFlow's tape and optimizer

    [tf.GradientTape.gradient] and [tf.keras.optimizers.Adam] belong to
    TensorFlow.  The tape differentiates the recorded loss, a function of the
    discriminator's trainable variables, at their current values; the
    optimizer turns gradients into new variables and a new optimizer state. *)

Class Runtime (L : Type) : Type := {
  Gradients : Type;
  Optimizer : Type;
  tape_gradient :
    (Discriminator L -> result R) -> Discriminator L -> Gradients;
  apply_gradients :
    Optimizer -> Gradients -> Discriminator L -> Optimizer * Discriminator L
}.

(** ** The KL regularizer *)

(** [VAIL._compute_kl]: per sample, the sum over the latent dimensions of
    [-log_std + (mean^2 + exp(log_std)^2 - 1) / 2]. *)
Definition _compute_kl (means log_stds : matrix) : result vector :=
  (squares <~ tf.add (tf.square means) (tf.square (tf.exp log_stds)) ;
   terms <~ tf.add (tf.negative log_stds)
                   (tf.pointwise (fun x => x / 2)
                                 (tf.pointwise (fun x => x - 1) squares)) ;
   OK (tf.reduce_sum_last terms))%res.

(** The docstring's formula: the KL divergence of N(mu1, sigma1^2) from
    N(mu2, sigma2^2). *)
Definition kl_normal (mu1 sigma1 mu2 sigma2 : R) : R :=
  ln (sigma2 / sigma1)
  + ((mu1 - mu2) * (mu1 - mu2) + sigma1 * sigma1 - sigma2 * sigma2)
    / (2 * (sigma2 * sigma2)).

(** The regularizer as the specification words it: for one sample, the sum
    over the latent dimensions of the closed form against N(0, 1). *)
Definition kl_term (mean log_std : R) : R :=
  - log_std + (mean * mean + exp log_std * exp log_std - 1) / 2.

Definition kl_sample (mean log_std : vector) : R :=
  sum (map2 kl_term mean log_std).

(** Values recorded under the gradient tape of one training step. *)
Record TapeValues : Type := {
  real_logits : matrix;
  fake_logits : matrix;
  disc_loss : R;
  real_kl : vector;
  fake_kl : vector;
  kl_loss : R;
  loss : R
}.

Section VAIL.

Context {L : Type} {layer : DenseClass L} {runtime : Runtime L}.

(** ** The VAIL object and the world it runs in *)

Record VAIL : Type := {
  policy_name : string;
  disc : Discriminator L;
  optimizer : Optimizer;
  _kl_target : R;
  _reg_param : R
}.

(** [self._step_reg_param = tf.constant(1e-5)] *)
Definition _step_reg_param : R := 1e-5.

(** [VAIL.__init__], given the discriminator and the optimizer that
    TensorFlow builds.  The program's defaults are [kl_target=0.5],
    [reg_param=0.] and [name="VAIL"]. *)
Definition VAIL_init (disc0 : Discriminator L) (optimizer0 : Optimizer)
           (kl_target reg_param : R) (name : string) : VAIL :=
  {| policy_name := name;
     disc := disc0;
     optimizer := optimizer0;
     _kl_target := kl_target;
     _reg_param := reg_param |}.

(** A write to one of the object's variables. *)
Inductive write : Type :=
| ApplyGradients (g : Gradients)
| AssignRegParam (v : R).

Record World : Type := {
  self : VAIL;
  generator : nat -> R;
  journal : list write;
  summaries : list (string * R)
}.

Definition M (A : Type) : Type := World -> result A * World.

Definition ret {A : Type} (a : A) : M A := fun w => (OK a, w).

Definition bind {A B : Type} (c : M A) (k : A -> M B) : M B :=
  fun w =>
    match c w with
    | (OK a, w') => k a w'
    | (Err e, w') => (Err e, w')
    end.

Definition lift {A : Type} (r : result A) : M A := fun w => (r, w).

Definition get_self : M VAIL := fun w => (OK (self w), w).

(** [tf.random.normal(shape)]: the next [rows * cols] draws of the
    generator, row by row. *)
Definition normal_rows (g : nat -> R) (rows cols : nat) : matrix :=
  map (fun i => map (fun j => g (i * cols + j)%nat) (seq 0 cols)) (seq 0 rows).

Definition random_normal (sh : nat * nat) : M matrix :=
  fun w =>
    (OK (normal_rows (generator w) (fst sh) (snd sh)),
     {| self := self w;
        generator := fun i => generator w (i + fst sh * snd sh)%nat;
        journal := journal w;
        summaries := summaries w |}).

(** [self.optimizer.apply_gradients(zip(grads, self.disc.trainable_variables))] *)
Definition optimizer_apply_gradients (grads : Gradients) : M unit :=
  fun w =>
    let me := self w in
    let step := apply_gradients (optimizer me) grads (disc me) in
    (OK tt,
     {| self := {| policy_name := policy_name me;
                   disc := snd step;
                   optimizer := fst step;
                   _kl_target := _kl_target me;
                   _reg_param := _reg_param me |};
        generator := generator w;
        journal := journal w ++ [ApplyGradients grads];
        summaries := summaries w |}).

(** [self._reg_param.assign(v)] *)
Definition reg_param_assign (v : R) : M unit :=
  fun w =>
    let me := self w in
    (OK tt,
     {| self := {| policy_name := policy_name me;
                   disc := disc me;
                   optimizer := optimizer me;
                   _kl_target := _kl_target me;
                   _reg_param := v |};
        generator := generator w;
        journal := journal w ++ [AssignRegParam v];
        summaries := summaries w |}).

(** [tf.summary.scalar(name=..., data=...)] *)
Definition summary_scalar (name : string) (data : R) : M unit :=
  fun w =>
    (OK tt,
     {| self := self w;
        generator := generator w;
        journal := journal w;
        summaries := summaries w ++ [(name, data)] |}).

End VAIL.

Arguments VAIL L {runtime}.
Arguments World L {runtime}.
Arguments M L {runtime} A.

Declare Scope vail_scope.
Delimit Scope vail_scope with vail.

Notation "x <- c ;; k" := (bind c (fun x => k))
  (at level 61, c at next level, right associativity) : vail_scope.
Notation "' pat <- c ;; k" := (bind c (fun x => match x with pat => k end))
  (at level 61, pat pattern, c at next level, right associativity) : vail_scope.

Section Program.

Context {L : Type} {layer : DenseClass L} {runtime : Runtime L}.

Local Open Scope vail_scope.

(** ** The discriminator *)

(** [Discriminator.call]: the stochastic forward pass. *)
Definition call (d : Discriminator L) (inputs : list ndarray)
  : M L (matrix * matrix * matrix) :=
  features <- lift (tf.concat_axis1 inputs) ;;
  features <- lift (layer_call (l1 d) features) ;;
  features <- lift (layer_call (l2 d) features) ;;
  means <- lift (layer_call (l_mean d) features) ;;
  logstds <- lift (layer_call (l_logstd d) features) ;;
  let logstds := tf.clip_by_value logstds LOG_SIG_CAP_MIN LOG_SIG_CAP_MAX in
  noise <- random_normal (shape means) ;;
  spread <- lift (tf.multiply noise (tf.exp logstds)) ;;
  latents <- lift (tf.add means spread) ;;
  out <- lift (layer_call (l3 d) latents) ;;
  ret (out, means, logstds).

(** [Discriminator.compute_reward]: the output head on the mean latent. *)
Definition compute_reward (d : Discriminator L) (inputs : list ndarray)
  : result matrix :=
  (features <~ tf.concat_axis1 inputs ;
   features <~ layer_call (l1 d) features ;
   features <~ layer_call (l2 d) features ;
   means <~ layer_call (l_mean d) features ;
   layer_call (l3 d) means)%res.

(** ** The training step *)

(** The block under [with tf.GradientTape() as tape], run with the
    discriminator variables [d]. *)
Definition _train_body_tape (epsilon : R) (d : Discriminator L)
           (agent_states agent_acts expert_states expert_acts : ndarray)
  : M L TapeValues :=
  me <- get_self ;;
  ' (real_logits, real_means, real_logstds) <-
      call d [expert_states; expert_acts] ;;
  ' (fake_logits, fake_means, fake_logstds) <-
      call d [agent_states; agent_acts] ;;
  let disc_loss :=
    - (tf.reduce_mean (tf.log (tf.pointwise (fun x => x + epsilon) real_logits))
       + tf.reduce_mean
           (tf.log (tf.pointwise (fun x => 1 - x + epsilon) fake_logits))) in
  real_kl <- lift (_compute_kl real_means real_logstds) ;;
  fake_kl <- lift (_compute_kl fake_means fake_logstds) ;;
  let kl_loss :=
    0.5 * (tf.reduce_mean1 real_kl - _kl_target me
           + tf.reduce_mean1 fake_kl - _kl_target me) in
  let loss := disc_loss + _reg_param me * kl_loss in
  ret {| real_logits := real_logits;
         fake_logits := fake_logits;
         disc_loss := disc_loss;
         real_kl := real_kl;
         fake_kl := fake_kl;
         kl_loss := kl_loss;
         loss := loss |}.

(** The loss the tape recorded at world [w], as a function of the
    discriminator variables. *)
Definition recorded_loss (epsilon : R)
           (agent_states agent_acts expert_states expert_acts : ndarray)
           (w : World L) (d : Discriminator L) : result R :=
  match fst (_train_body_tape epsilon d agent_states agent_acts
                              expert_states expert_acts w) with
  | OK t => OK (loss t)
  | Err e => Err e
  end.

(** [VAIL._train_body] *)
Definition _train_body
           (agent_states agent_acts expert_states expert_acts : ndarray)
  : M L (R * R * R * R) :=
  fun w0 =>
    let epsilon := 1e-8 in
    (me <- get_self ;;
     t <- _train_body_tape epsilon (disc me) agent_states agent_acts
                           expert_states expert_acts ;;
     let grads :=
       tape_gradient
         (recorded_loss epsilon agent_states agent_acts
                        expert_states expert_acts w0)
         (disc me) in
     _ <- optimizer_apply_gradients grads ;;
     me <- get_self ;;
     _ <- reg_param_assign
            (tf.maximum 0
               (_reg_param me
                + _step_reg_param * (kl_loss t - _kl_target me))) ;;
     let accuracy :=
       tf.reduce_mean (tf.cast_ge 0.5 (real_logits t)) / 2
       + tf.reduce_mean (tf.cast_lt 0.5 (fake_logits t)) / 2 in
     ret (loss t, accuracy,
          tf.reduce_mean1 (real_kl t), tf.reduce_mean1 (fake_kl t))) w0.

(** [VAIL.train] *)
Definition train (agent_states agent_acts expert_states expert_acts : ndarray)
  : M L unit :=
  ' (loss, accuracy, real_kl, fake_kl) <-
      _train_body agent_states agent_acts expert_states expert_acts ;;
  me <- get_self ;;
  _ <- summary_scalar (policy_name me ++ "/DiscriminatorLoss") loss ;;
  _ <- summary_scalar (policy_name me ++ "/Accuracy") accuracy ;;
  _ <- summary_scalar (policy_name me ++ "/RegParam") (_reg_param me) ;;
  _ <- summary_scalar (policy_name me ++ "/RealKL") real_kl ;;
  summary_scalar (policy_name me ++ "/FakeKL") fake_kl.

(** ** Reward inference *)

(** [VAIL._inference_body] *)
Definition _inference_body (states actions : ndarray) : M L matrix :=
  me <- get_self ;;
  reward <- lift (compute_reward (disc me) [states; actions]) ;;
  ret (tf.log (tf.pointwise (fun x => x + 1e-8) reward)).

(** [VAIL.inference]; [states.ndim == actions.ndim == 1] is Python's
    chained comparison. *)
Definition inference (states actions : ndarray) : M L matrix :=
  if Nat.eqb (ndim states) (ndim actions) && Nat.eqb (ndim actions) 1
  then
    states' <- lift (np.expand_dims0 states) ;;
    actions' <- lift (np.expand_dims0 actions) ;;
    _inference_body states' actions'
  else _inference_body states actions.

End Program.

(** ** The composite loss, as the specification words it

    [disc_loss + beta * kl_loss_term] with [disc_loss = -(mean(log(real_prob
    + 1e-8)) + mean(log(1 - fake_prob + 1e-8)))] and [kl_loss_term = 0.5 *
    ((mean(real_kl) - kl_target) + (mean(fake_kl) - kl_target))]. *)
Definition composite_loss (beta kl_target : R) (real_prob fake_prob : matrix)
           (real_kl fake_kl : vector) : R :=
  let disc_loss :=
    - (tf.reduce_mean (tf.log (tf.pointwise (fun x => x + 1e-8) real_prob))
       + tf.reduce_mean
           (tf.log (tf.pointwise (fun x => 1 - x + 1e-8) fake_prob))) in
  let kl_loss_term :=
    0.5 * ((tf.reduce_mean1 real_kl - kl_target)
           + (tf.reduce_mean1 fake_kl - kl_target)) in
  disc_loss + beta * kl_loss_term.

(** The arrays [inference] forwards: the batches of one for two rank-1
    arrays, the arrays themselves otherwise. *)
Definition promoted (states actions : ndarray) : list ndarray :=
  match states, actions with
  | Rank1 s, Rank1 a => [Rank2 [s]; Rank2 [a]]
  | _, _ => [states; actions]
  end.

(** ** Runs of training steps *)

Section Runs.

Context {L : Type} {layer : DenseClass L} {runtime : Runtime L}.

(** What a computation leaves alone: the object, the journal of writes
    and the summaries. *)
Definition untouched (w w' : World L) : Prop :=
  self w' = self w /\ journal w' = journal w /\ summaries w' = summaries w.

(** [trained w w']: the trainer reaches [w'] from [w] by calling [train]
    some number of times, on whatever batches; a call that raises leaves
    the world it raised in. *)
Inductive trained : World L -> World L -> Prop :=
| trained_start (w : World L) : trained w w
| trained_next (w w1 : World L)
               (agent_states agent_acts expert_states expert_acts : ndarray) :
    trained w w1 ->
    trained w (snd (train agent_states agent_acts expert_states expert_acts w1)).

(** The same, where the [kl_loss] of every step is at most [kl_target]. *)
Inductive trained_below : World L -> World L -> Prop :=
| below_start (w : World L) : trained_below w w
| below_next (w w1 : World L)
             (agent_states agent_acts expert_states expert_acts : ndarray) :
    trained_below w w1 ->
    (forall t w2,
        _train_body_tape 1e-8 (disc (self w1)) agent_states agent_acts
                         expert_states expert_acts w1 = (OK t, w2) ->
        kl_loss t <= _kl_target (self w1)) ->
    trained_below w
      (snd (train agent_states agent_acts expert_states expert_acts w1)).

End Runs.

(** The leading dimension of an array: its batch size. *)
Definition leading_dim (a : ndarray) : nat :=
  match a with
  | Rank1 v => length v
  | Rank2 m => length m
  end.

(** ** A small instance

    A discriminator over one state feature and one action feature, with one
    unit per layer.  Its mean head answers 1 and its log-std head answers 0
    whatever the input, so every sample's KL divergence is 1/2.  The
    generator's draws are -1, 0, 1, 2, ...  The runtime beside it has nothing
    to learn: its gradients are empty and its optimizer returns the variables
    it was given. *)

Module Sample.

Definition idle_runtime : Runtime Dense :=
  {| Gradients := unit;
     Optimizer := unit;
     tape_gradient := fun _ _ => tt;
     apply_gradients := fun o _ d => (o, d) |}.

Definition disc0 : Discriminator Dense :=
  {| l1 := {| kernel := [[1]; [1]]; bias := [0]; activation_fn := relu |};
     l2 := {| kernel := [[1]]; bias := [0]; activation_fn := relu |};
     l_mean := {| kernel := [[0]]; bias := [1]; activation_fn := linear |};
     l_logstd := {| kernel := [[0]]; bias := [0]; activation_fn := linear |};
     l3 := {| kernel := [[1]]; bias := [0]; activation_fn := sigmoid |} |}.

Definition world_of (rt : Runtime Dense) (o : @Optimizer Dense rt)
           (kl_target reg_param : R) : World Dense :=
  {| self := VAIL_init disc0 o kl_target reg_param "VAIL";
     generator := fun i => INR i - 1;
     journal := [];
     summaries := [] |}.

(** The program's defaults: [kl_target=0.5], [reg_param=0.]. *)
Definition world0 : World Dense := world_of idle_runtime tt 0.5 0.

(** The same object with the coefficient at 1. *)
Definition world1 : World Dense := world_of idle_runtime tt 0.5 1.

Definition one_state : ndarray := Rank2 [[1]].
Definition one_action : ndarray := Rank2 [[2]].
Definition two_states : ndarray := Rank2 [[1]; [0]].
Definition two_actions : ndarray := Rank2 [[0]; [1]].

End Sample.

(** ** More of the small instance *)

(** The world of [Sample.world0] with a generator that draws 0 only. *)
Definition quiet_world : World Dense :=
  {| self := self Sample.world0;
     generator := fun _ => 0;
     journal := [];
     summaries := [] |}.

(** A run writes the object's variables in pairs: an optimizer update, then
    an assignment of the coefficient. *)
Inductive paired {L : Type} {runtime : Runtime L} : list (@write L runtime) -> Prop :=
| paired_nil : paired []
| paired_step (g : Gradients) (v : R) (rest : list write) :
    paired rest -> paired (ApplyGradients g :: AssignRegParam v :: rest).

(** * Properties *)

(** ** Shapes *)

Lemma nats_eqb_eq (u v : list nat) : nats_eqb u v = true <-> u = v.
Proof.
  revert v; induction u as [|x u IH]; intros [|y v]; simpl; split;
    try discriminate; try reflexivity.
  - intros E. apply andb_true_iff in E as [Exy Euv].
    apply Nat.eqb_eq in Exy. apply IH in Euv. congruence.
  - intros E. injection E as -> ->.
    apply andb_true_iff; split; [apply Nat.eqb_refl | now apply IH].
Qed.

Lemma same_shape_widths (a b : matrix) :
  same_shape a b = true <-> row_widths a = row_widths b.
Proof. apply nats_eqb_eq. Qed.

Lemma row_widths_pointwise (f : R -> R) (m : matrix) :
  row_widths (tf.pointwise f m) = row_widths m.
Proof.
  unfold row_widths, tf.pointwise. rewrite map_map.
  apply map_ext; intros r. apply length_map.
Qed.

Lemma length_map2 {A B C : Type} (f : A -> B -> C) (u : list A) (v : list B) :
  length u = length v -> length (map2 f u v) = length u.
Proof.
  intros E. unfold map2. rewrite length_map, length_combine, <- E.
  apply Nat.min_id.
Qed.

Lemma row_widths_map2 (f : R -> R -> R) (a b : matrix) :
  row_widths a = row_widths b ->
  row_widths (map2 (map2 f) a b) = row_widths a.
Proof.
  revert b; induction a as [|r a IH]; intros [|s b] E; simpl in *;
    try discriminate; try reflexivity.
  injection E as Ers Eab.
  change (map2 (map2 f) (r :: a) (s :: b))
    with (map2 f r s :: map2 (map2 f) a b).
  simpl. rewrite (length_map2 f r s Ers). f_equal. now apply IH.
Qed.

Lemma length_map2_rows {C : Type} (f : vector -> vector -> C) (a b : matrix) :
  row_widths a = row_widths b -> length (map2 f a b) = length a.
Proof.
  intros E. apply length_map2.
  unfold row_widths in E. apply (f_equal (@length nat)) in E.
  now rewrite !length_map in E.
Qed.

Lemma elementwise_ok (f : R -> R -> R) (a b : matrix) :
  row_widths a = row_widths b ->
  tf.elementwise f a b = OK (map2 (map2 f) a b).
Proof.
  intros E. unfold tf.elementwise.
  now rewrite (proj2 (same_shape_widths a b) E).
Qed.

Lemma elementwise_inv (f : R -> R -> R) (a b c : matrix) :
  tf.elementwise f a b = OK c ->
  row_widths a = row_widths b /\ c = map2 (map2 f) a b.
Proof.
  unfold tf.elementwise. destruct (same_shape a b) eqn:E; [|discriminate].
  intros [= <-]. split; [now apply same_shape_widths | reflexivity].
Qed.

(** ** The KL regularizer *)

Lemma kl_row (m s : vector) :
  sum (map2 Rplus (map Ropp s)
         (map (fun x => x / 2)
            (map (fun x => x - 1)
               (map2 Rplus (map (fun x => x * x) m)
                  (map (fun x => x * x) (map exp s))))))
  = kl_sample m s.
Proof.
  unfold kl_sample, map2.
  revert s; induction m as [|x m IH]; intros [|y s]; simpl; try reflexivity.
  rewrite IH. unfold kl_term. lra.
Qed.

Lemma kl_rows (means log_stds : matrix) :
  tf.reduce_sum_last
    (map2 (map2 Rplus) (tf.negative log_stds)
       (tf.pointwise (fun x => x / 2)
          (tf.pointwise (fun x => x - 1)
             (map2 (map2 Rplus) (tf.square means)
                (tf.square (tf.exp log_stds))))))
  = map2 kl_sample means log_stds.
Proof.
  unfold tf.reduce_sum_last, tf.negative, tf.square, tf.exp, tf.pointwise, map2.
  revert log_stds; induction means as [|m means IH]; intros [|s log_stds];
    simpl; try reflexivity.
  rewrite IH. f_equal. apply kl_row.
Qed.

Lemma kl_term_normal (mean log_std : R) :
  kl_term mean log_std = kl_normal mean (exp log_std) 0 1.
Proof.
  unfold kl_term, kl_normal.
  replace (1 / exp log_std) with (/ exp log_std) by lra.
  rewrite ln_Rinv by apply exp_pos. rewrite ln_exp. lra.
Qed.

Lemma compute_kl_ok (means log_stds : matrix) :
  row_widths means = row_widths log_stds ->
  _compute_kl means log_stds = OK (map2 kl_sample means log_stds).
Proof.
  intros E. unfold _compute_kl, tf.add, rbind.
  rewrite elementwise_ok.
  2:{ unfold tf.square, tf.exp. now rewrite !row_widths_pointwise. }
  rewrite elementwise_ok.
  2:{ unfold tf.negative, tf.square, tf.exp.
      rewrite !row_widths_pointwise, row_widths_map2;
        now rewrite !row_widths_pointwise. }
  now rewrite kl_rows.
Qed.

(** C1.  On a batch of mean vectors and log-std vectors of one shape,
    [_compute_kl] returns one number per sample, the sum over the latent
    dimensions of [-log_std + (mean^2 + exp(log_std)^2 - 1) / 2]; each summand
    is the docstring's KL divergence of N(mean, exp(log_std)^2) from
    N(0, 1). *)
Theorem compute_kl_closed_form (means log_stds : matrix) :
  same_shape means log_stds = true ->
  _compute_kl means log_stds = OK (map2 kl_sample means log_stds)
  /\ length (map2 kl_sample means log_stds) = length means
  /\ (forall mean log_std,
        kl_term mean log_std = kl_normal mean (exp log_std) 0 1).
Proof.
  intros E. apply same_shape_widths in E. split; [|split].
  - now apply compute_kl_ok.
  - now apply length_map2_rows.
  - apply kl_term_normal.
Qed.

Lemma compute_kl_closed_form_witness :
  same_shape [[1; 2]; [0; 3]] [[0; 0]; [1; -1]] = true
  /\ _compute_kl [[1; 2]; [0; 3]] [[0; 0]; [1; -1]]
     = OK (map2 kl_sample [[1; 2]; [0; 3]] [[0; 0]; [1; -1]]).
Proof.
  split; [reflexivity|].
  apply (compute_kl_closed_form [[1; 2]; [0; 3]] [[0; 0]; [1; -1]]).
  reflexivity.
Defined.

(** ** Running the program *)

(** Unfolds the program and the list functions under it, and leaves the
    arithmetic on the reals as it is written. *)
Ltac run_program :=
  cbv beta iota zeta delta
    [ _train_body _train_body_tape call compute_reward _compute_kl
      _inference_body inference train
      bind ret lift get_self random_normal normal_rows
      optimizer_apply_gradients reg_param_assign summary_scalar rbind is_err
      tf.concat_axis1 tf.concat_onto tf.concat_rows tf.elementwise tf.add
      tf.multiply tf.exp tf.log tf.square tf.negative tf.pointwise
      tf.clip_by_value tf.reduce_sum_last
      np.expand_dims0 ndim same_shape row_widths nats_eqb map2 shape
      layer_call Dense_DenseClass Dense_call row_matmul
      kernel bias activation_fn l1 l2 l_mean l_logstd l3
      self generator journal summaries
      disc optimizer _kl_target _reg_param policy_name VAIL_init
      apply_gradients tape_gradient
      Sample.idle_runtime Sample.disc0 Sample.world_of Sample.world0
      Sample.world1 Sample.one_state Sample.one_action Sample.two_states
      Sample.two_actions
      map combine fold_right seq length Nat.eqb forallb andb app repeat
      fst snd hd Nat.mul Nat.add ].

(** Splits on the outcome of every call in a monadic block. *)
Ltac split_calls :=
  repeat match goal with
         | |- context [match ?c with (_, _) => _ end] =>
             let r := fresh "r" in
             let w := fresh "w" in
             let E := fresh "E" in
             destruct c as [r w] eqn:E
         | |- context [match ?r with OK _ => _ | Err _ => _ end] =>
             let E := fresh "E" in
             destruct r eqn:E
         end.

Section Frames.

Context {L : Type} {layer : DenseClass L} {runtime : Runtime L}.

Lemma untouched_trans (w1 w2 w3 : World L) :
  untouched w1 w2 -> untouched w2 w3 -> untouched w1 w3.
Proof.
  intros (A1 & B1 & C1) (A2 & B2 & C2).
  repeat split; congruence.
Qed.

Lemma call_untouched (d : Discriminator L) (inputs : list ndarray)
      (w : World L) :
  untouched w (snd (call d inputs w)).
Proof.
  unfold call, bind, lift, ret, random_normal.
  split_calls; simpl;
    repeat match goal with
           | H : (_, _) = (_, _) |- _ => injection H as <- <-
           end; simpl; now repeat split.
Qed.

Lemma call_concat_err (d : Discriminator L) (inputs : list ndarray)
      (e : error) (w : World L) :
  tf.concat_axis1 inputs = Err e -> call d inputs w = (Err e, w).
Proof.
  intros E. unfold call, bind, lift. now rewrite E.
Qed.

Lemma call_shapes (d : Discriminator L) (inputs : list ndarray)
      (w w' : World L) (out means logstds : matrix) :
  call d inputs w = (OK (out, means, logstds), w') ->
  row_widths means = row_widths logstds.
Proof.
  unfold call, bind, lift, ret, random_normal.
  split_calls; simpl;
    repeat match goal with
           | H : (_, _) = (_, _) |- _ => injection H as <- <-
           end; try discriminate.
  intros [= <- <- <- <-].
  unfold tf.multiply, tf.add in *.
  match goal with
  | A : tf.elementwise Rmult _ _ = OK _,
    B : tf.elementwise Rplus _ _ = OK _ |- _ =>
      apply elementwise_inv in A as [WA ->];
      apply elementwise_inv in B as [WB _]
  end.
  rewrite WB, row_widths_map2 by exact WA.
  rewrite WA. unfold tf.exp. apply row_widths_pointwise.
Qed.

End Frames.

(** ** One training step *)

Section Training.

Context {L : Type} {layer : DenseClass L} {runtime : Runtime L}.

Variables agent_states agent_acts expert_states expert_acts : ndarray.

Local Abbreviation tape d :=
  (_train_body_tape 1e-8 d agent_states agent_acts expert_states expert_acts).
Local Abbreviation step :=
  (_train_body agent_states agent_acts expert_states expert_acts).
Local Abbreviation recorded w :=
  (recorded_loss 1e-8 agent_states agent_acts expert_states expert_acts w).

Lemma tape_untouched (d : Discriminator L) (w : World L) :
  untouched w (snd (tape d w)).
Proof.
  unfold _train_body_tape, bind, get_self, lift, ret.
  pose proof (call_untouched d [expert_states; expert_acts] w) as U1.
  destruct (call d [expert_states; expert_acts] w) as [[[[rl rm] rs]|e] w1];
    simpl in *; [|exact U1].
  pose proof (call_untouched d [agent_states; agent_acts] w1) as U2.
  destruct (call d [agent_states; agent_acts] w1) as [[[[fl fm] fs]|e] w2];
    simpl in *; [|exact (untouched_trans _ _ _ U1 U2)].
  split_calls; simpl; exact (untouched_trans _ _ _ U1 U2).
Qed.

Lemma tape_run (d : Discriminator L) (w w1 w2 : World L)
      (rl rm rs fl fm fs : matrix) :
  call d [expert_states; expert_acts] w = (OK (rl, rm, rs), w1) ->
  call d [agent_states; agent_acts] w1 = (OK (fl, fm, fs), w2) ->
  let real_kl := map2 kl_sample rm rs in
  let fake_kl := map2 kl_sample fm fs in
  let disc_loss :=
    - (tf.reduce_mean (tf.log (tf.pointwise (fun x => x + 1e-8) rl))
       + tf.reduce_mean (tf.log (tf.pointwise (fun x => 1 - x + 1e-8) fl))) in
  let kl_loss :=
    0.5 * (tf.reduce_mean1 real_kl - _kl_target (self w)
           + tf.reduce_mean1 fake_kl - _kl_target (self w)) in
  tape d w
  = (OK {| real_logits := rl;
           fake_logits := fl;
           disc_loss := disc_loss;
           real_kl := real_kl;
           fake_kl := fake_kl;
           kl_loss := kl_loss;
           loss := disc_loss + _reg_param (self w) * kl_loss |}, w2).
Proof.
  intros C1 C2. simpl.
  unfold _train_body_tape, bind, get_self, lift, ret.
  rewrite C1, C2.
  rewrite (compute_kl_ok rm rs) by exact (call_shapes _ _ _ _ _ _ _ C1).
  rewrite (compute_kl_ok fm fs) by exact (call_shapes _ _ _ _ _ _ _ C2).
  reflexivity.
Qed.

Lemma tape_inv (d : Discriminator L) (w w2 : World L) (t : TapeValues) :
  tape d w = (OK t, w2) ->
  exists rl rm rs w1 fl fm fs,
    call d [expert_states; expert_acts] w = (OK (rl, rm, rs), w1)
    /\ call d [agent_states; agent_acts] w1 = (OK (fl, fm, fs), w2).
Proof.
  unfold _train_body_tape, bind, get_self, lift, ret.
  destruct (call d [expert_states; expert_acts] w)
    as [[[[rl rm] rs]|e] w1] eqn:C1; [|discriminate].
  destruct (call d [agent_states; agent_acts] w1)
    as [[[[fl fm] fs]|e] w2'] eqn:C2; [|discriminate].
  split_calls; try discriminate.
  intros [= _ <-]. now exists rl, rm, rs, w1, fl, fm, fs.
Qed.

Lemma recorded_loss_now (w w1 : World L) (t : TapeValues) :
  tape (disc (self w)) w = (OK t, w1) ->
  recorded w (disc (self w)) = OK (loss t).
Proof. intros E. unfold recorded_loss. now rewrite E. Qed.

(** What a training step does once its forward passes have gone through. *)
Lemma train_body_ok (w w1 : World L) (t : TapeValues) :
  tape (disc (self w)) w = (OK t, w1) ->
  let grads := tape_gradient (recorded w) (disc (self w)) in
  let updated := apply_gradients (optimizer (self w)) grads (disc (self w)) in
  let beta :=
    tf.maximum 0
      (_reg_param (self w)
       + _step_reg_param * (kl_loss t - _kl_target (self w))) in
  let accuracy :=
    tf.reduce_mean (tf.cast_ge 0.5 (real_logits t)) / 2
    + tf.reduce_mean (tf.cast_lt 0.5 (fake_logits t)) / 2 in
  exists w',
    step w = (OK (loss t, accuracy,
                  tf.reduce_mean1 (real_kl t), tf.reduce_mean1 (fake_kl t)),
              w')
    /\ disc (self w') = snd updated
    /\ optimizer (self w') = fst updated
    /\ _reg_param (self w') = beta
    /\ _kl_target (self w') = _kl_target (self w)
    /\ policy_name (self w') = policy_name (self w)
    /\ journal w' = journal w ++ [ApplyGradients grads; AssignRegParam beta]
    /\ summaries w' = summaries w
    /\ generator w' = generator w1.
Proof.
  intros E. simpl.
  destruct (tape_untouched (disc (self w)) w) as (Uself & Ujournal & Usum).
  rewrite E in Uself, Ujournal, Usum. simpl in Uself, Ujournal, Usum.
  unfold _train_body, bind, get_self, optimizer_apply_gradients,
    reg_param_assign, ret.
  rewrite E. simpl. rewrite Uself, Ujournal, Usum.
  eexists. split; [reflexivity|]. simpl.
  rewrite <- app_assoc. now repeat split.
Qed.

(** A training step whose forward passes fail raises their error, where
    they raised it. *)
Lemma train_body_err (w w1 : World L) (e : error) :
  tape (disc (self w)) w = (Err e, w1) -> step w = (Err e, w1).
Proof.
  intros E. unfold _train_body, bind, get_self. now rewrite E.
Qed.

Lemma train_body_untouched_on_err (w w' : World L) (e : error) :
  step w = (Err e, w') -> untouched w w'.
Proof.
  intros E.
  pose proof (tape_untouched (disc (self w)) w) as U.
  destruct (tape (disc (self w)) w) as [[t|e'] w1] eqn:T.
  - destruct (train_body_ok w w1 t T) as (w2 & S & _). congruence.
  - rewrite (train_body_err w w1 e' T) in E. injection E as _ <-. exact U.
Qed.

End Training.

(** ** The closed form in exact arithmetic

    Facts about the formula of [_compute_kl] read over the reals.  They do
    not bound the [float32] values the program returns: near the prior the
    sign of [-log_std + (exp(log_std)^2 - 1) / 2] is decided by rounding. *)

Lemma kl_term_nonneg (mean log_std : R) : 0 <= kl_term mean log_std.
Proof.
  unfold kl_term.
  pose proof (exp_ineq1_le (log_std + log_std)) as E.
  rewrite exp_plus in E.
  pose proof (Rle_0_sqr mean) as S. unfold Rsqr in S.
  lra.
Qed.

Lemma kl_sample_nonneg (mean log_std : vector) : 0 <= kl_sample mean log_std.
Proof.
  unfold kl_sample, map2.
  revert log_std; induction mean as [|m mean IH]; intros [|s log_std]; simpl;
    try lra.
  pose proof (kl_term_nonneg m s). pose proof (IH log_std). lra.
Qed.

(** ** The losses of a training step *)

Section Losses.

Context {L : Type} {layer : DenseClass L} {runtime : Runtime L}.

Variables agent_states agent_acts expert_states expert_acts : ndarray.

Local Abbreviation tape d :=
  (_train_body_tape 1e-8 d agent_states agent_acts expert_states expert_acts).
Local Abbreviation step :=
  (_train_body agent_states agent_acts expert_states expert_acts).
Local Abbreviation recorded w :=
  (recorded_loss 1e-8 agent_states agent_acts expert_states expert_acts w).

Lemma tape_losses (d : Discriminator L) (w w2 : World L) (t : TapeValues) :
  tape d w = (OK t, w2) ->
  kl_loss t
  = 0.5 * ((tf.reduce_mean1 (real_kl t) - _kl_target (self w))
           + (tf.reduce_mean1 (fake_kl t) - _kl_target (self w)))
  /\ loss t = disc_loss t + _reg_param (self w) * kl_loss t.
Proof.
  intros T.
  destruct (tape_inv _ _ _ _ d w w2 t T)
    as (rl & rm & rs & w1 & fl & fm & fs & C1 & C2).
  pose proof (tape_run _ _ _ _ d w w1 w2 rl rm rs fl fm fs C1 C2) as T'.
  simpl in T'. rewrite T in T'. injection T' as ->. simpl.
  split; [lra | reflexivity].
Qed.

(** The loss the tape recorded, at any value [d] of the discriminator's
    variables: the composite loss of the forward passes run with [d] on the
    same batches and the same draws of noise. *)
Lemma recorded_loss_at (w w1 w2 : World L) (d : Discriminator L)
      (real_prob real_means real_logstds : matrix)
      (fake_prob fake_means fake_logstds : matrix) :
  call d [expert_states; expert_acts] w
  = (OK (real_prob, real_means, real_logstds), w1) ->
  call d [agent_states; agent_acts] w1
  = (OK (fake_prob, fake_means, fake_logstds), w2) ->
  exists real_kl fake_kl,
    _compute_kl real_means real_logstds = OK real_kl
    /\ _compute_kl fake_means fake_logstds = OK fake_kl
    /\ recorded w d
       = OK (composite_loss (_reg_param (self w)) (_kl_target (self w))
                            real_prob fake_prob real_kl fake_kl).
Proof.
  intros C1 C2.
  pose proof (tape_run _ _ _ _ d w w1 w2 _ _ _ _ _ _ C1 C2) as T.
  simpl in T.
  exists (map2 kl_sample real_means real_logstds),
    (map2 kl_sample fake_means fake_logstds).
  split; [exact (compute_kl_ok _ _ (call_shapes _ _ _ _ _ _ _ C1))|].
  split; [exact (compute_kl_ok _ _ (call_shapes _ _ _ _ _ _ _ C2))|].
  unfold recorded_loss. rewrite T. simpl. unfold composite_loss.
  f_equal. lra.
Qed.

Lemma recorded_loss_err (w : World L) (d : Discriminator L) :
  (forall e w1,
      call d [expert_states; expert_acts] w = (Err e, w1) ->
      recorded w d = Err e)
  /\ (forall out w1 e w2,
         call d [expert_states; expert_acts] w = (OK out, w1) ->
         call d [agent_states; agent_acts] w1 = (Err e, w2) ->
         recorded w d = Err e).
Proof.
  split.
  - intros e w1 C1.
    unfold recorded_loss, _train_body_tape, bind, get_self.
    now rewrite C1.
  - intros [[rl rm] rs] w1 e w2 C1 C2.
    unfold recorded_loss, _train_body_tape, bind, get_self.
    now rewrite C1, C2.
Qed.

(** C2.  When the two forward passes of a training step go through, with
    outputs [(real_prob, real_means, real_logstds)] on the expert batch and
    [(fake_prob, fake_means, fake_logstds)] on the agent batch, the step
    computes [disc_loss = -(mean(log(real_prob + 1e-8)) +
    mean(log(1 - fake_prob + 1e-8)))] and [kl_loss_term = 0.5 *
    ((mean(real_kl) - kl_target) + (mean(fake_kl) - kl_target))] and returns
    [loss = disc_loss + beta * kl_loss_term].  The function the tape
    differentiates is that composite loss at every value of the
    discriminator's variables: run with variables [d] on the same batches and
    the same draws of noise, it is the composite loss of the outputs of [d],
    and it raises where a forward pass of [d] raises.  The new variables are
    the optimizer's step along the gradient of that function at the current
    variables. *)
Theorem train_body_composite_loss (w w1 w2 : World L)
        (real_prob real_means real_logstds : matrix)
        (fake_prob fake_means fake_logstds : matrix) :
  call (disc (self w)) [expert_states; expert_acts] w
  = (OK (real_prob, real_means, real_logstds), w1) ->
  call (disc (self w)) [agent_states; agent_acts] w1
  = (OK (fake_prob, fake_means, fake_logstds), w2) ->
  exists real_kl fake_kl accuracy w',
    _compute_kl real_means real_logstds = OK real_kl
    /\ _compute_kl fake_means fake_logstds = OK fake_kl
    /\ let disc_loss :=
         - (tf.reduce_mean
              (tf.log (tf.pointwise (fun x => x + 1e-8) real_prob))
            + tf.reduce_mean
                (tf.log (tf.pointwise (fun x => 1 - x + 1e-8) fake_prob))) in
       let kl_loss_term :=
         0.5 * ((tf.reduce_mean1 real_kl - _kl_target (self w))
                + (tf.reduce_mean1 fake_kl - _kl_target (self w))) in
       let loss := disc_loss + _reg_param (self w) * kl_loss_term in
       step w = (OK (loss, accuracy,
                     tf.reduce_mean1 real_kl, tf.reduce_mean1 fake_kl), w')
       /\ recorded w (disc (self w)) = OK loss
       /\ disc (self w')
          = snd (apply_gradients (optimizer (self w))
                   (tape_gradient (recorded w) (disc (self w)))
                   (disc (self w)))
       /\ (forall d p m s q n r v1 v2,
              call d [expert_states; expert_acts] w = (OK (p, m, s), v1) ->
              call d [agent_states; agent_acts] v1 = (OK (q, n, r), v2) ->
              exists d_real_kl d_fake_kl,
                _compute_kl m s = OK d_real_kl
                /\ _compute_kl n r = OK d_fake_kl
                /\ recorded w d
                   = OK (composite_loss (_reg_param (self w))
                                        (_kl_target (self w))
                                        p q d_real_kl d_fake_kl))
       /\ (forall d e v1,
              call d [expert_states; expert_acts] w = (Err e, v1) ->
              recorded w d = Err e)
       /\ (forall d out v1 e v2,
              call d [expert_states; expert_acts] w = (OK out, v1) ->
              call d [agent_states; agent_acts] v1 = (Err e, v2) ->
              recorded w d = Err e).
Proof.
  intros C1 C2.
  pose proof (tape_run _ _ _ _ (disc (self w)) w w1 w2 _ _ _ _ _ _ C1 C2)
    as T.
  simpl in T.
  destruct (train_body_ok _ _ _ _ w w2 _ T) as (w' & S & D & _).
  pose proof (recorded_loss_now _ _ _ _ w w2 _ T) as Rec.
  simpl in S, Rec, D.
  exists (map2 kl_sample real_means real_logstds),
    (map2 kl_sample fake_means fake_logstds).
  eexists. exists w'.
  split; [exact (compute_kl_ok _ _ (call_shapes _ _ _ _ _ _ _ C1))|].
  split; [exact (compute_kl_ok _ _ (call_shapes _ _ _ _ _ _ _ C2))|].
  cbv zeta.
  match goal with
  | |- context [0.5 * ((?a - ?k) + (?b - ?k))] =>
      replace (0.5 * ((a - k) + (b - k))) with (0.5 * (a - k + b - k))
        by lra
  end.
  split; [exact S|]. split; [exact Rec|]. split; [exact D|].
  split; [|split].
  - intros d p m s q n r v1 v2 D1 D2.
    exact (recorded_loss_at w v1 v2 d p m s q n r D1 D2).
  - intros d. exact (proj1 (recorded_loss_err w d)).
  - intros d. exact (proj2 (recorded_loss_err w d)).
Qed.

(** C3.  A training step whose forward passes go through writes the
    object's variables twice, in this order: the optimizer's update of the
    discriminator, then one assignment of [max(0, beta + 1e-5 *
    (kl_loss_term - kl_target))] to the coefficient, where [kl_loss_term] is
    the value recorded on the tape, that is, computed with the
    discriminator's variables as they were before the optimizer's
    update. *)
Theorem train_body_dual_ascent (w w1 : World L) (t : TapeValues) :
  tape (disc (self w)) w = (OK t, w1) ->
  let grads := tape_gradient (recorded w) (disc (self w)) in
  let beta :=
    Rmax 0 (_reg_param (self w) + 1e-5 * (kl_loss t - _kl_target (self w))) in
  exists out w',
    step w = (OK out, w')
    /\ _reg_param (self w') = beta
    /\ journal w' = journal w ++ [ApplyGradients grads; AssignRegParam beta]
    /\ disc (self w')
       = snd (apply_gradients (optimizer (self w)) grads (disc (self w)))
    /\ kl_loss t
       = 0.5 * ((tf.reduce_mean1 (real_kl t) - _kl_target (self w))
                + (tf.reduce_mean1 (fake_kl t) - _kl_target (self w))).
Proof.
  intros T. simpl.
  destruct (train_body_ok _ _ _ _ w w1 t T)
    as (w' & S & D & _ & B & _ & _ & J & _).
  eexists. exists w'.
  split; [exact S|]. split; [exact B|]. split; [exact J|].
  split; [exact D|]. exact (proj1 (tape_losses _ _ _ _ T)).
Qed.

End Losses.

(** ** The regularization coefficient over a run *)

Section Coefficient.

Context {L : Type} {layer : DenseClass L} {runtime : Runtime L}.

Variables agent_states agent_acts expert_states expert_acts : ndarray.

Local Abbreviation tape d :=
  (_train_body_tape 1e-8 d agent_states agent_acts expert_states expert_acts).
Local Abbreviation step :=
  (_train_body agent_states agent_acts expert_states expert_acts).
Local Abbreviation logged :=
  (train agent_states agent_acts expert_states expert_acts).

(** [train] is [_train_body] followed by five summaries. *)
Lemma train_after_body (w : World L) :
  self (snd (logged w)) = self (snd (step w))
  /\ journal (snd (logged w)) = journal (snd (step w))
  /\ is_err (fst (logged w)) = is_err (fst (step w)).
Proof.
  unfold train, bind.
  destruct (step w) as [[out|e] w']; [|now repeat split].
  destruct out as [[[l a] rk] fk]. now repeat split.
Qed.

Lemma train_err (w w' : World L) (e : error) :
  step w = (Err e, w') -> logged w = (Err e, w').
Proof. intros E. unfold train, bind. now rewrite E. Qed.

(** The coefficient after a step: assigned if the forward passes went
    through, left alone if they raised. *)
Lemma train_body_reg_param (w : World L) :
  (exists t w1,
      tape (disc (self w)) w = (OK t, w1)
      /\ _reg_param (self (snd (step w)))
         = Rmax 0 (_reg_param (self w)
                   + 1e-5 * (kl_loss t - _kl_target (self w)))
      /\ _kl_target (self (snd (step w))) = _kl_target (self w))
  \/ (is_err (fst (step w)) = true /\ self (snd (step w)) = self w).
Proof.
  destruct (tape (disc (self w)) w) as [[t|e] w1] eqn:T.
  - left. exists t, w1. split; [reflexivity|].
    destruct (train_body_ok _ _ _ _ w w1 t T)
      as (w' & S & _ & _ & B & K & _).
    rewrite S. simpl. split; [exact B | exact K].
  - right. rewrite (train_body_err _ _ _ _ w w1 e T). simpl.
    pose proof (tape_untouched agent_states agent_acts expert_states
                               expert_acts (disc (self w)) w) as U.
    rewrite T in U. split; [reflexivity | apply U].
Qed.

End Coefficient.

Section Invariants.

Context {L : Type} {layer : DenseClass L} {runtime : Runtime L}.

(** C10.  A coefficient of 0 stays 0 over any run of training steps whose
    [kl_loss] is at most [kl_target].  While it is 0 the loss of a step is
    its [disc_loss] alone, the step leaves it at 0 if its [kl_loss] is at
    most [kl_target], and makes it positive if its [kl_loss] exceeds
    [kl_target]. *)
Theorem reg_param_stays_zero (w w' : World L) :
  _reg_param (self w) = 0 ->
  trained_below w w' ->
  _reg_param (self w') = 0
  /\ forall agent_states agent_acts expert_states expert_acts t w1,
       _train_body_tape 1e-8 (disc (self w')) agent_states agent_acts
                        expert_states expert_acts w' = (OK t, w1) ->
       let after :=
         snd (_train_body agent_states agent_acts expert_states expert_acts w')
       in
       loss t = disc_loss t
       /\ (kl_loss t <= _kl_target (self w') -> _reg_param (self after) = 0)
       /\ (_kl_target (self w') < kl_loss t -> 0 < _reg_param (self after)).
Proof.
  intros Init Run.
  assert (Zero : _reg_param (self w') = 0).
  { induction Run as [w | w w1 a_s a_a e_s e_a Run IH Below].
    - exact Init.
    - specialize (IH Init).
      destruct (train_after_body a_s a_a e_s e_a w1) as (-> & _).
      destruct (train_body_reg_param a_s a_a e_s e_a w1)
        as [(t & w2 & T & -> & _) | (_ & ->)]; [|exact IH].
      specialize (Below t w2 T). rewrite IH.
      apply Rmax_left. lra. }
  split; [exact Zero|].
  intros a_s a_a e_s e_a t w1 T. simpl.
  destruct (tape_losses _ _ _ _ _ _ _ _ T) as (_ & Loss).
  destruct (train_body_reg_param a_s a_a e_s e_a w')
    as [(t' & w2 & T' & -> & _) | (E & _)].
  - rewrite T in T'. injection T' as <- <-. rewrite Zero in *.
    split; [lra|]. split; intros K.
    + apply Rmax_left. lra.
    + rewrite Rmax_right by lra. lra.
  - destruct (train_body_ok _ _ _ _ w' w1 t T) as (w2 & S & _).
    rewrite S in E. discriminate.
Qed.

End Invariants.

(** ** The small instance, evaluated *)

Lemma clip_zero (x : R) :
  Rmax (Rmin (x * 0 + 0 + 0) LOG_SIG_CAP_MAX) LOG_SIG_CAP_MIN = 0.
Proof.
  unfold LOG_SIG_CAP_MAX, LOG_SIG_CAP_MIN.
  replace (x * 0 + 0 + 0) with 0 by lra.
  rewrite Rmin_left by lra. apply Rmax_left. lra.
Qed.

Ltac sample_arith :=
  cbv beta iota delta [activate];
  rewrite ?clip_zero, ?exp_0;
  cbv [sum tf.reduce_mean1 fold_right length INR];
  lra.

(** On the small instance every sample's KL divergence is 1/2, whatever the
    runtime, the target and the coefficient. *)
Lemma sample_tape (rt : Runtime Dense) (o : @Optimizer Dense rt)
      (target beta : R) :
  exists t w1,
    _train_body_tape 1e-8 Sample.disc0
      Sample.two_states Sample.two_actions Sample.two_states Sample.two_actions
      (Sample.world_of rt o target beta) = (OK t, w1)
    /\ tf.reduce_mean1 (real_kl t) = 0.5
    /\ tf.reduce_mean1 (fake_kl t) = 0.5
    /\ kl_loss t = 0.5 - target.
Proof.
  eexists. eexists. split.
  - run_program. reflexivity.
  - cbv beta iota delta [real_kl fake_kl kl_loss].
    repeat split; sample_arith.
Qed.

Lemma train_body_composite_loss_witness :
  exists out w',
    _train_body Sample.two_states Sample.two_actions
                Sample.two_states Sample.two_actions Sample.world1
    = (OK out, w').
Proof.
  destruct (sample_tape Sample.idle_runtime tt 0.5 1) as (t & w2 & T & _).
  destruct (tape_inv _ _ _ _ _ _ _ _ T)
    as (rl & rm & rs & w1 & fl & fm & fs & C1 & C2).
  destruct (train_body_composite_loss
              Sample.two_states Sample.two_actions
              Sample.two_states Sample.two_actions
              Sample.world1 w1 w2 rl rm rs fl fm fs C1 C2)
    as (rk & fk & acc & w' & _ & _ & S & _).
  eexists. exists w'. exact S.
Defined.

Lemma train_body_dual_ascent_witness :
  exists out w',
    _train_body Sample.two_states Sample.two_actions
                Sample.two_states Sample.two_actions Sample.world1
    = (OK out, w')
    /\ length (journal w') = 2%nat.
Proof.
  destruct (sample_tape Sample.idle_runtime tt 0.5 1) as (t & w1 & T & _).
  destruct (train_body_dual_ascent
              Sample.two_states Sample.two_actions
              Sample.two_states Sample.two_actions Sample.world1 w1 t T)
    as (out & w' & S & _ & J & _).
  exists out, w'. split; [exact S|]. rewrite J. reflexivity.
Defined.

(** C4, at the failing input.  On empty batches the two forward passes go
    through, so the step completes and assigns the coefficient.  The
    probabilities and the KL divergences it averages are empty tensors, and
    the value it assigns is computed from [kl_loss], which is built from the
    means of those empty tensors.  TensorFlow's mean of an empty tensor is
    NaN and [tf.maximum(0., NaN)] is NaN: the coefficient the program
    assigns here is not a number, let alone a non-negative one. *)
Theorem train_body_empty_batches :
  exists t w1 out w',
    _train_body_tape 1e-8 Sample.disc0 (Rank2 []) (Rank2 []) (Rank2 [])
                     (Rank2 []) Sample.world0 = (OK t, w1)
    /\ real_logits t = [] /\ fake_logits t = []
    /\ real_kl t = [] /\ fake_kl t = []
    /\ kl_loss t
       = 0.5 * (tf.reduce_mean1 [] - 0.5 + tf.reduce_mean1 [] - 0.5)
    /\ _train_body (Rank2 []) (Rank2 []) (Rank2 []) (Rank2 []) Sample.world0
       = (OK out, w')
    /\ journal w'
       = [@ApplyGradients Dense Sample.idle_runtime tt;
          AssignRegParam (tf.maximum 0 (0 + 1e-5 * (kl_loss t - 0.5)))].
Proof.
  assert (T : _train_body_tape 1e-8 (disc (self Sample.world0)) (Rank2 [])
                (Rank2 []) (Rank2 []) (Rank2 []) Sample.world0
              = (OK _, _)) by (run_program; reflexivity).
  destruct (train_body_ok _ _ _ _ Sample.world0 _ _ T)
    as (w' & S & _ & _ & _ & _ & _ & J & _).
  do 3 eexists. exists w'.
  split; [exact T|]. repeat (split; [reflexivity|]).
  split; [exact S | exact J].
Qed.

Lemma reg_param_stays_zero_witness :
  _reg_param
    (self (snd (train Sample.two_states Sample.two_actions
                      Sample.two_states Sample.two_actions
                      Sample.world0))) = 0.
Proof.
  refine (proj1 (reg_param_stays_zero Sample.world0 _ eq_refl _)).
  apply below_next; [apply below_start|].
  intros t w2 T.
  destruct (sample_tape Sample.idle_runtime tt 0.5 0)
    as (t' & w1 & T' & _ & _ & K).
  change (disc (self Sample.world0)) with Sample.disc0 in T.
  change Sample.world0 with (Sample.world_of Sample.idle_runtime tt 0.5 0) in T.
  rewrite T' in T. injection T as <- _. rewrite K.
  change (_kl_target (self Sample.world0)) with 0.5.
  lra.
Defined.

(** ** The coefficient at the target *)

Section AtTarget.

Context {L : Type} {layer : DenseClass L} {runtime : Runtime L}.

Variables agent_states agent_acts expert_states expert_acts : ndarray.

(** When the mean KL divergence of both batches is exactly the target,
    the step still lowers a positive coefficient: by [1e-5 * kl_target],
    down to 0 at most. *)
Lemma reg_param_at_target (w w1 : World L) (t : TapeValues) :
  _train_body_tape 1e-8 (disc (self w)) agent_states agent_acts
                   expert_states expert_acts w = (OK t, w1) ->
  tf.reduce_mean1 (real_kl t) = _kl_target (self w) ->
  tf.reduce_mean1 (fake_kl t) = _kl_target (self w) ->
  _reg_param
    (self (snd (_train_body agent_states agent_acts
                            expert_states expert_acts w)))
  = Rmax 0 (_reg_param (self w) - 1e-5 * _kl_target (self w)).
Proof.
  intros T Real Fake.
  destruct (tape_losses _ _ _ _ _ _ _ _ T) as (K & _).
  destruct (train_body_ok _ _ _ _ w w1 t T) as (w' & S & _ & _ & B & _).
  rewrite S. simpl. rewrite B, K, Real, Fake.
  unfold tf.maximum, _step_reg_param. f_equal. lra.
Qed.

End AtTarget.

(** C5, as the program runs.  With [kl_target = 0.5] and the coefficient at
    1, a training step on which the mean KL divergence of the expert batch
    and of the agent batch are both exactly 0.5 moves the coefficient to
    [1 - 5e-6]: the update term is [1e-5 * (0 - 0.5)], not zero. *)
Theorem reg_param_decays_at_target :
  exists loss accuracy w',
    _train_body Sample.two_states Sample.two_actions
                Sample.two_states Sample.two_actions Sample.world1
    = (OK (loss, accuracy, 0.5, 0.5), w')
    /\ _kl_target (self Sample.world1) = 0.5
    /\ _reg_param (self Sample.world1) = 1
    /\ _reg_param (self w') = 1 - 5e-6
    /\ _reg_param (self w') <> _reg_param (self Sample.world1).
Proof.
  destruct (sample_tape Sample.idle_runtime tt 0.5 1)
    as (t & w1 & T & Real & Fake & K).
  destruct (train_body_ok Sample.two_states Sample.two_actions
                          Sample.two_states Sample.two_actions
                          Sample.world1 w1 t T)
    as (w' & S & _ & _ & B & _).
  rewrite Real, Fake in S.
  assert (New : _reg_param (self w') = 1 - 5e-6).
  { rewrite B, K. simpl. unfold tf.maximum, _step_reg_param.
    rewrite Rmax_right; lra. }
  eexists. eexists. exists w'. split; [exact S|].
  split; [reflexivity|]. split; [reflexivity|]. split; [exact New|].
  rewrite New. simpl. lra.
Qed.

(** ** Malformed batches *)

Lemma concat_pair_mismatch (a b : ndarray) :
  leading_dim a <> leading_dim b ->
  exists msg, tf.concat_axis1 [a; b] = Err (InvalidArgumentError msg).
Proof.
  intros N. destruct a as [u|m]; [eexists; reflexivity|].
  destruct b as [v|n]; [eexists; reflexivity|].
  simpl in *. unfold tf.concat_rows.
  apply Nat.eqb_neq in N. rewrite N. eexists; reflexivity.
Qed.

Section Malformed.

Context {L : Type} {layer : DenseClass L} {runtime : Runtime L}.

(** C9, as the program runs.  A training step on an expert pair or an
    agent pair whose state batch and action batch differ in their leading
    dimension raises [InvalidArgumentError]; so does [train], which handles
    nothing.  No variable of the object has been written and nothing has
    been logged when it is raised. *)
Theorem train_body_rejects_unpaired
        (agent_states agent_acts expert_states expert_acts : ndarray)
        (w : World L) :
  leading_dim expert_states <> leading_dim expert_acts
  \/ leading_dim agent_states <> leading_dim agent_acts ->
  exists msg w',
    _train_body agent_states agent_acts expert_states expert_acts w
    = (Err (InvalidArgumentError msg), w')
    /\ train agent_states agent_acts expert_states expert_acts w
       = (Err (InvalidArgumentError msg), w')
    /\ self w' = self w
    /\ journal w' = journal w
    /\ summaries w' = summaries w.
Proof.
  intros Bad.
  assert (Tape : exists msg w',
             _train_body_tape 1e-8 (disc (self w)) agent_states agent_acts
                              expert_states expert_acts w
             = (Err (InvalidArgumentError msg), w')).
  { unfold _train_body_tape, bind, get_self.
    destruct (call (disc (self w)) [expert_states; expert_acts] w)
      as [[[[rl rm] rs]|[msg]] w1] eqn:C1.
    - destruct Bad as [Bad|Bad].
      + destruct (concat_pair_mismatch _ _ Bad) as (msg & E).
        rewrite (call_concat_err _ _ _ w E) in C1. discriminate.
      + destruct (concat_pair_mismatch _ _ Bad) as (msg & E).
        rewrite (call_concat_err _ _ _ w1 E). now exists msg, w1.
    - now exists msg, w1. }
  destruct Tape as (msg & w' & T).
  pose proof (train_body_err _ _ _ _ w w' _ T) as S.
  exists msg, w'. split; [exact S|].
  split; [exact (train_err _ _ _ _ w w' _ S)|].
  exact (train_body_untouched_on_err _ _ _ _ w w' _ S).
Qed.

End Malformed.

Lemma train_body_rejects_unpaired_witness :
  exists msg w',
    _train_body Sample.one_state Sample.two_actions
                Sample.two_states Sample.two_actions Sample.world0
    = (Err (InvalidArgumentError msg), w').
Proof.
  destruct (train_body_rejects_unpaired
              Sample.one_state Sample.two_actions
              Sample.two_states Sample.two_actions Sample.world0)
    as (msg & w' & S & _).
  - right. simpl. lia.
  - now exists msg, w'.
Defined.

(** C9, as stated, fails: an agent batch of one sample and an expert batch
    of two go through a training step. *)
Lemma train_body_accepts_unequal_batches :
  leading_dim Sample.one_state <> leading_dim Sample.two_states
  /\ exists out w',
       _train_body Sample.one_state Sample.one_action
                   Sample.two_states Sample.two_actions Sample.world0
       = (OK out, w').
Proof.
  split; [simpl; lia|].
  eexists. eexists. run_program. reflexivity.
Qed.

(** ** Reward inference *)

Section Inference.

Context {L : Type} {layer : DenseClass L} {runtime : Runtime L}.

Lemma inference_body_run (states actions : ndarray) (w : World L) :
  _inference_body states actions w
  = (rbind (compute_reward (disc (self w)) [states; actions])
           (fun reward =>
              OK (tf.log (tf.pointwise (fun x => x + 1e-8) reward))),
     w).
Proof.
  unfold _inference_body, bind, get_self, lift, ret, rbind.
  now destruct (compute_reward (disc (self w)) [states; actions]).
Qed.

Lemma inference_run (states actions : ndarray) :
  exists states' actions',
    forall w : World L,
      inference states actions w = _inference_body states' actions' w.
Proof.
  destruct states as [s|s], actions as [a|a];
    eexists; eexists; intros w; reflexivity.
Qed.

Lemma compute_reward_rows (d : Discriminator L) (s a : vector)
      (reward : matrix) :
  compute_reward d [Rank2 [s]; Rank2 [a]] = OK reward ->
  length reward = 1%nat.
Proof.
  unfold compute_reward, rbind. simpl.
  destruct (layer_call (l1 d) _) as [f1|] eqn:E1; [|discriminate].
  destruct (layer_call (l2 d) f1) as [f2|] eqn:E2; [|discriminate].
  destruct (layer_call (l_mean d) f2) as [m|] eqn:E3; [|discriminate].
  intros E4.
  apply layer_call_rows in E1, E2, E3, E4. simpl in E1. congruence.
Qed.

(** C7, as the program runs.  On a rank-1 state and a rank-1 action,
    [inference] runs the forward pass on the batch of one that holds them,
    and so returns what it returns on that rank-2 batch of one: the same
    error, or the same tensor.  That tensor keeps the batch axis: it has
    rank 2 and one row, and is not squeezed back to the rank of the
    inputs. *)
Theorem inference_single_sample (s a : vector) (w : World L) :
  inference (Rank1 s) (Rank1 a) w
  = _inference_body (Rank2 [s]) (Rank2 [a]) w
  /\ inference (Rank1 s) (Rank1 a) w
     = inference (Rank2 [s]) (Rank2 [a]) w
  /\ forall reward w',
       inference (Rank1 s) (Rank1 a) w = (OK reward, w') ->
       length reward = 1%nat /\ ndim (Rank2 reward) = 2%nat.
Proof.
  assert (Promote : inference (Rank1 s) (Rank1 a) w
                    = _inference_body (Rank2 [s]) (Rank2 [a]) w)
    by reflexivity.
  split; [exact Promote|]. split; [reflexivity|].
  intros reward w'. rewrite Promote, inference_body_run.
  destruct (compute_reward (disc (self w)) [Rank2 [s]; Rank2 [a]])
    as [r|e] eqn:E; simpl; [|discriminate].
  intros [= <- _]. split; [|reflexivity].
  unfold tf.log, tf.pointwise. rewrite !length_map.
  exact (compute_reward_rows _ _ _ _ E).
Qed.

(** The reward head reads the mean latent of the forward pass. *)
Lemma compute_reward_mean_latent (d : Discriminator L)
      (inputs : list ndarray) (w w' : World L)
      (out means logstds : matrix) :
  call d inputs w = (OK (out, means, logstds), w') ->
  compute_reward d inputs = layer_call (l3 d) means.
Proof.
  unfold call, compute_reward, bind, lift, ret, rbind.
  destruct (tf.concat_axis1 inputs) as [f0|]; [|discriminate].
  destruct (layer_call (l1 d) f0) as [f1|]; [|discriminate].
  destruct (layer_call (l2 d) f1) as [f2|]; [|discriminate].
  destruct (layer_call (l_mean d) f2) as [m|]; [|discriminate].
  split_calls; try discriminate.
  now intros [= _ <- _ _].
Qed.

Lemma inference_promoted (states actions : ndarray) (w : World L) :
  inference states actions w
  = (rbind (compute_reward (disc (self w)) (promoted states actions))
           (fun reward =>
              OK (tf.log (tf.pointwise (fun x => x + 1e-8) reward))),
     w).
Proof.
  destruct states as [s|s], actions as [a|a]; simpl promoted;
    rewrite <- inference_body_run; reflexivity.
Qed.

(** C8.  [inference] returns [log(compute_reward(states, actions) + 1e-8)]
    on the arrays it forwards (the batches of one for two rank-1 arrays, the
    arrays themselves otherwise), and leaves the world, the random generator
    included, as it found it.  So what it returns depends on the
    discriminator's variables and on its inputs only, and a second call
    returns what the first returned.  [compute_reward] is the noise-free
    path: it feeds the output head the mean latent that the stochastic
    forward pass computes on the same arrays. *)
Theorem inference_deterministic (states actions : ndarray)
        (w1 w2 : World L) :
  disc (self w1) = disc (self w2) ->
  inference states actions w1
  = (rbind (compute_reward (disc (self w1)) (promoted states actions))
           (fun reward =>
              OK (tf.log (tf.pointwise (fun x => x + 1e-8) reward))),
     w1)
  /\ fst (inference states actions w2) = fst (inference states actions w1)
  /\ inference states actions (snd (inference states actions w1))
     = inference states actions w1
  /\ forall out means logstds w',
       call (disc (self w1)) (promoted states actions) w1
       = (OK (out, means, logstds), w') ->
       compute_reward (disc (self w1)) (promoted states actions)
       = layer_call (l3 (disc (self w1))) means.
Proof.
  intros Same.
  split; [apply inference_promoted|]. split; [|split].
  - rewrite !inference_promoted. simpl. now rewrite Same.
  - rewrite (inference_promoted states actions w1). cbn [snd].
    apply inference_promoted.
  - intros out means logstds w'. apply compute_reward_mean_latent.
Qed.

End Inference.

Lemma inference_deterministic_witness :
  exists p,
    compute_reward Sample.disc0 [Sample.one_state; Sample.one_action]
    = OK [[p]]
    /\ inference Sample.one_state Sample.one_action Sample.world0
       = (OK [[ln (p + 1e-8)]], Sample.world0)
    /\ fst (inference Sample.one_state Sample.one_action Sample.world1)
       = OK [[ln (p + 1e-8)]].
Proof.
  destruct (inference_deterministic Sample.one_state Sample.one_action
                                    Sample.world0 Sample.world1 eq_refl)
    as (Run & Same & _).
  eexists.
  assert (P : compute_reward Sample.disc0
                             [Sample.one_state; Sample.one_action]
              = OK [[_]]) by (run_program; reflexivity).
  split; [exact P|].
  change (compute_reward (disc (self Sample.world0))
                         (promoted Sample.one_state Sample.one_action))
    with (compute_reward Sample.disc0 [Sample.one_state; Sample.one_action])
    in Run.
  rewrite P in Run. split; [exact Run|]. rewrite Same, Run. reflexivity.
Defined.

(** C7, as stated, fails: on a rank-1 state and a rank-1 action the result
    is not in the single-sample shape of the inputs.  It is the rank-2
    tensor of shape (1, 1) that the batch of one returns, not squeezed. *)
Lemma inference_keeps_batch_axis :
  exists r,
    inference (Rank1 [1]) (Rank1 [2]) Sample.world0
    = (OK [[r]], Sample.world0)
    /\ shape [[r]] = (1%nat, 1%nat)
    /\ ndim (Rank2 [[r]]) <> ndim (Rank1 [1]).
Proof.
  eexists. split; [run_program; reflexivity|].
  split; [reflexivity | simpl; lia].
Qed.

(** On the small instance the reward of a single sample is computed, from
    rank-1 inputs as from the batch of one. *)
Example inference_sample :
  exists reward,
    inference (Rank1 [1]) (Rank1 [2]) Sample.world0
    = (OK [[reward]], Sample.world0).
Proof. eexists. run_program. reflexivity. Qed.

(** * Further properties of the program *)

(** ** The KL divergence at the prior *)

Lemma kl_term_at_prior : kl_term 0 0 = 0.
Proof. unfold kl_term. rewrite exp_0. lra. Qed.

Lemma kl_sample_at_prior (mean log_std : vector) :
  Forall (fun x => x = 0) mean ->
  Forall (fun x => x = 0) log_std ->
  kl_sample mean log_std = 0.
Proof.
  unfold kl_sample, map2. intros M. revert log_std.
  induction M as [|m mean -> M IH]; intros log_std S; [reflexivity|].
  destruct S as [|s log_std -> S]; [reflexivity|]. simpl.
  rewrite kl_term_at_prior, (IH log_std S). lra.
Qed.

Lemma kl_batch_at_prior (means log_stds : matrix) :
  row_widths means = row_widths log_stds ->
  Forall (Forall (fun x => x = 0)) means ->
  Forall (Forall (fun x => x = 0)) log_stds ->
  map2 kl_sample means log_stds = repeat 0 (length means).
Proof.
  unfold map2. intros W M. revert log_stds W.
  induction M as [|m means Zm M IH]; intros [|s log_stds] W S;
    simpl in *; try discriminate; [reflexivity|].
  injection W as _ W. inversion S as [|? ? Zs S']; subst.
  rewrite (kl_sample_at_prior m s Zm Zs). f_equal. now apply IH.
Qed.

(** X1.  On mean and log-std batches of one shape whose every entry is 0,
    [_compute_kl] returns exactly 0 for every sample: at the prior N(0, 1)
    the divergence is 0, whatever the batch size and the latent width. *)
Theorem compute_kl_zero_at_prior (means log_stds : matrix) :
  same_shape means log_stds = true ->
  Forall (Forall (fun x => x = 0)) means ->
  Forall (Forall (fun x => x = 0)) log_stds ->
  _compute_kl means log_stds = OK (repeat 0 (length means)).
Proof.
  intros E M S. apply same_shape_widths in E.
  rewrite (compute_kl_ok means log_stds E).
  now rewrite (kl_batch_at_prior means log_stds E M S).
Qed.

Lemma compute_kl_zero_at_prior_witness :
  _compute_kl [[0; 0]; [0; 0]] [[0; 0]; [0; 0]] = OK [0; 0].
Proof.
  apply (compute_kl_zero_at_prior [[0; 0]; [0; 0]] [[0; 0]; [0; 0]]).
  - reflexivity.
  - repeat constructor.
  - repeat constructor.
Defined.

(** ** The stochastic forward pass *)

Lemma concat_pair_rows (s a features : matrix) :
  tf.concat_axis1 [Rank2 s; Rank2 a] = OK features ->
  length s = length a /\ length features = length s.
Proof.
  simpl. unfold tf.concat_rows.
  destruct (Nat.eqb (length s) (length a)) eqn:E; [|discriminate].
  apply Nat.eqb_eq in E. intros [= <-].
  split; [exact E | now apply length_map2].
Qed.

Lemma concat_rank1_err (a b : ndarray) :
  ndim a = 1%nat \/ ndim b = 1%nat ->
  exists msg, tf.concat_axis1 [a; b] = Err (InvalidArgumentError msg).
Proof.
  destruct a as [u|m], b as [v|n]; simpl; intros [N|N]; try discriminate;
    try (eexists; reflexivity).
Qed.

Section Forward.

Context {L : Type} {layer : DenseClass L} {runtime : Runtime L}.

(** Every stage of a forward pass that went through. *)
Lemma call_inv (d : Discriminator L) (inputs : list ndarray)
      (w w' : World L) (out means logstds : matrix) :
  call d inputs w = (OK (out, means, logstds), w') ->
  exists features f1 f2 raw spread latents,
    tf.concat_axis1 inputs = OK features
    /\ layer_call (l1 d) features = OK f1
    /\ layer_call (l2 d) f1 = OK f2
    /\ layer_call (l_mean d) f2 = OK means
    /\ layer_call (l_logstd d) f2 = OK raw
    /\ logstds = tf.clip_by_value raw LOG_SIG_CAP_MIN LOG_SIG_CAP_MAX
    /\ tf.multiply
         (normal_rows (generator w) (fst (shape means)) (snd (shape means)))
         (tf.exp logstds) = OK spread
    /\ tf.add means spread = OK latents
    /\ layer_call (l3 d) latents = OK out
    /\ self w' = self w
    /\ journal w' = journal w
    /\ summaries w' = summaries w
    /\ forall i,
         generator w' i
         = generator w (i + fst (shape means) * snd (shape means))%nat.
Proof.
  unfold call, bind, lift, ret, random_normal.
  destruct (tf.concat_axis1 inputs) as [features|] eqn:E0; [|discriminate].
  destruct (layer_call (l1 d) features) as [f1|] eqn:E1; [|discriminate].
  destruct (layer_call (l2 d) f1) as [f2|] eqn:E2; [|discriminate].
  destruct (layer_call (l_mean d) f2) as [m|] eqn:E3; [|discriminate].
  destruct (layer_call (l_logstd d) f2) as [raw|] eqn:E4; [|discriminate].
  destruct (tf.multiply _ _) as [spread|] eqn:E5; [|discriminate].
  destruct (tf.add m spread) as [latents|] eqn:E6; [|discriminate].
  destruct (layer_call (l3 d) latents) as [o|] eqn:E7; [|discriminate].
  intros [= <- <- <- <-].
  exists features, f1, f2, raw, spread, latents.
  repeat split; assumption.
Qed.

Lemma clip_within (raw : matrix) :
  Forall (Forall (fun s => LOG_SIG_CAP_MIN <= s <= LOG_SIG_CAP_MAX))
         (tf.clip_by_value raw LOG_SIG_CAP_MIN LOG_SIG_CAP_MAX).
Proof.
  unfold tf.clip_by_value, tf.pointwise.
  apply Forall_map, Forall_forall. intros r _.
  apply Forall_map, Forall_forall. intros x _.
  unfold LOG_SIG_CAP_MIN, LOG_SIG_CAP_MAX, Rmax, Rmin.
  destruct (Rle_dec x 2); destruct (Rle_dec _ (-20)); lra.
Qed.

(** X2.  The log-stds a forward pass returns lie in [[-20, 2]], whatever the
    log-std head computed. *)
Theorem call_logstds_clipped (d : Discriminator L) (inputs : list ndarray)
        (w w' : World L) (out means logstds : matrix) :
  call d inputs w = (OK (out, means, logstds), w') ->
  Forall (Forall (fun s => -20 <= s <= 2)) logstds.
Proof.
  intros C.
  destruct (call_inv _ _ _ _ _ _ _ C)
    as (f0 & f1 & f2 & raw & sp & la & _ & _ & _ & _ & _ & -> & _).
  apply clip_within.
Qed.

Lemma elementwise_rows (f : R -> R -> R) (a b c : matrix) :
  tf.elementwise f a b = OK c -> length c = length a.
Proof.
  intros E. apply elementwise_inv in E as [W ->].
  now apply length_map2_rows.
Qed.

(** X3.  A forward pass on a state batch and an action batch returns one
    probability row, one mean row and one log-std row per sample; the two
    batches had as many rows as each other. *)
Theorem call_rows (d : Discriminator L) (states actions : matrix)
        (w w' : World L) (out means logstds : matrix) :
  call d [Rank2 states; Rank2 actions] w = (OK (out, means, logstds), w') ->
  length actions = length states
  /\ length out = length states
  /\ length means = length states
  /\ length logstds = length states.
Proof.
  intros C.
  destruct (call_inv _ _ _ _ _ _ _ C)
    as (f0 & f1 & f2 & raw & sp & la
        & E0 & E1 & E2 & E3 & E4 & -> & E5 & E6 & E7 & _).
  apply concat_pair_rows in E0 as [Len E0].
  apply layer_call_rows in E1, E2, E3, E4, E7.
  apply elementwise_rows in E6.
  unfold tf.clip_by_value, tf.pointwise. rewrite length_map.
  repeat split; congruence.
Qed.

(** X6.  A forward pass that went through has drawn one number per entry of
    the mean tensor from the generator, and has written nothing else: not
    the object, not the journal, not the summaries. *)
Theorem call_draws (d : Discriminator L) (inputs : list ndarray)
        (w w' : World L) (out means logstds : matrix) :
  call d inputs w = (OK (out, means, logstds), w') ->
  (forall i,
      generator w' i
      = generator w (i + length means * length (hd [] means))%nat)
  /\ self w' = self w
  /\ journal w' = journal w
  /\ summaries w' = summaries w.
Proof.
  intros C.
  destruct (call_inv _ _ _ _ _ _ _ C)
    as (f0 & f1 & f2 & raw & sp & la
        & _ & _ & _ & _ & _ & _ & _ & _ & _ & S & J & U & G).
  repeat split; assumption.
Qed.

Lemma normal_rows_zero (g : nat -> R) (rows cols : nat) :
  (forall i, g i = 0) ->
  Forall (Forall (fun x => x = 0)) (normal_rows g rows cols).
Proof.
  intros Z. unfold normal_rows.
  apply Forall_map, Forall_forall. intros i _.
  apply Forall_map, Forall_forall. intros j _. apply Z.
Qed.

Lemma add_zero_spread (means noise scale : matrix) :
  Forall (Forall (fun x => x = 0)) noise ->
  row_widths noise = row_widths scale ->
  row_widths means = row_widths noise ->
  map2 (map2 Rplus) means (map2 (map2 Rmult) noise scale) = means.
Proof.
  unfold map2.
  revert noise scale; induction means as [|m means IH];
    intros [|n noise] [|s scale] Z W1 W2; simpl in *; try discriminate;
    try reflexivity.
  injection W1 as Wr1 W1. injection W2 as Wr2 W2.
  inversion Z as [|? ? Zr Z']; subst.
  rewrite (IH noise scale Z' W1 W2). f_equal.
  clear - Zr Wr1 Wr2.
  revert n s Zr Wr1 Wr2; induction m as [|x m IHm];
    intros [|y n] [|z s] Zr Wr1 Wr2; simpl in *; try discriminate;
    try reflexivity.
  inversion Zr as [|? ? -> Zr']; subst.
  rewrite (IHm n s Zr') by congruence. f_equal. lra.
Qed.

(** X5.  When the generator draws 0, the stochastic forward pass returns
    the probabilities of [compute_reward]: the two paths differ by the
    noise alone. *)
Theorem call_without_noise (d : Discriminator L) (inputs : list ndarray)
        (w w' : World L) (out means logstds : matrix) :
  (forall i, generator w i = 0) ->
  call d inputs w = (OK (out, means, logstds), w') ->
  compute_reward d inputs = OK out.
Proof.
  intros Z C.
  destruct (call_inv _ _ _ _ _ _ _ C)
    as (f0 & f1 & f2 & raw & sp & la
        & E0 & E1 & E2 & E3 & E4 & Clip & E5 & E6 & E7 & _).
  unfold compute_reward, rbind. rewrite E0, E1, E2, E3.
  unfold tf.multiply, tf.add in E5, E6.
  apply elementwise_inv in E5 as [W5 ->].
  apply elementwise_inv in E6 as [W6 ->].
  rewrite row_widths_map2 in W6 by exact W5.
  rewrite add_zero_spread in E7; try assumption.
  now apply normal_rows_zero.
Qed.

End Forward.

Lemma call_logstds_clipped_witness :
  exists out means logstds w',
    call Sample.disc0 [Sample.two_states; Sample.two_actions] Sample.world0
    = (OK (out, means, logstds), w')
    /\ Forall (Forall (fun s => -20 <= s <= 2)) logstds.
Proof.
  eexists. eexists. eexists. eexists.
  assert (C : call Sample.disc0 [Sample.two_states; Sample.two_actions]
                   Sample.world0 = (OK (_, _, _), _))
    by (run_program; reflexivity).
  split; [exact C|].
  exact (call_logstds_clipped _ _ _ _ _ _ _ C).
Defined.

Lemma call_rows_witness :
  exists out means logstds w',
    call Sample.disc0 [Sample.two_states; Sample.two_actions] Sample.world0
    = (OK (out, means, logstds), w')
    /\ length out = 2%nat.
Proof.
  eexists. eexists. eexists. eexists.
  assert (C : call Sample.disc0 [Rank2 [[1]; [0]]; Rank2 [[0]; [1]]]
                   Sample.world0 = (OK (_, _, _), _))
    by (run_program; reflexivity).
  split; [exact C|].
  exact (proj1 (proj2 (call_rows _ _ _ _ _ _ _ _ C))).
Defined.

Lemma call_draws_witness :
  exists out means logstds w',
    call Sample.disc0 [Sample.two_states; Sample.two_actions] Sample.world0
    = (OK (out, means, logstds), w')
    /\ generator w' 0%nat = generator Sample.world0 2%nat.
Proof.
  eexists. eexists. eexists. eexists.
  assert (C : call Sample.disc0 [Sample.two_states; Sample.two_actions]
                   Sample.world0 = (OK (_, _, _), _))
    by (run_program; reflexivity).
  split; [exact C|].
  exact (proj1 (call_draws _ _ _ _ _ _ _ C) 0%nat).
Defined.

Lemma call_without_noise_witness :
  exists out means logstds w',
    call Sample.disc0 [Sample.two_states; Sample.two_actions] quiet_world
    = (OK (out, means, logstds), w')
    /\ compute_reward Sample.disc0 [Sample.two_states; Sample.two_actions]
       = OK out.
Proof.
  eexists. eexists. eexists. eexists.
  assert (C : call Sample.disc0 [Sample.two_states; Sample.two_actions]
                   quiet_world = (OK (_, _, _), _))
    by (cbv delta [quiet_world]; run_program; reflexivity).
  split; [exact C|].
  exact (call_without_noise _ _ quiet_world _ _ _ _ (fun _ => eq_refl) C).
Defined.

(** ** Batches and ranks in reward inference *)

Section Ranks.

Context {L : Type} {layer : DenseClass L} {runtime : Runtime L}.

Lemma compute_reward_batch_rows (d : Discriminator L) (s a reward : matrix) :
  compute_reward d [Rank2 s; Rank2 a] = OK reward ->
  length a = length s /\ length reward = length s.
Proof.
  unfold compute_reward, rbind.
  destruct (tf.concat_axis1 _) as [f0|] eqn:E0; [|discriminate].
  destruct (layer_call (l1 d) f0) as [f1|] eqn:E1; [|discriminate].
  destruct (layer_call (l2 d) f1) as [f2|] eqn:E2; [|discriminate].
  destruct (layer_call (l_mean d) f2) as [m|] eqn:E3; [|discriminate].
  intros E4.
  apply concat_pair_rows in E0 as [Len E0].
  apply layer_call_rows in E1, E2, E3, E4.
  split; congruence.
Qed.

Lemma inference_body_ok (states actions : ndarray) (w w' : World L)
      (reward : matrix) :
  _inference_body states actions w = (OK reward, w') ->
  exists p,
    compute_reward (disc (self w)) [states; actions] = OK p
    /\ reward = tf.log (tf.pointwise (fun x => x + 1e-8) p).
Proof.
  rewrite inference_body_run.
  destruct (compute_reward (disc (self w)) [states; actions]) as [p|];
    simpl; [|discriminate].
  intros [= <- _]. now exists p.
Qed.

(** X4.  On a rank-2 state batch and a rank-2 action batch, a reward
    inference that goes through returns one row per sample, and the two
    batches had as many rows as each other. *)
Theorem inference_batch_rows (states actions : matrix) (w w' : World L)
        (reward : matrix) :
  inference (Rank2 states) (Rank2 actions) w = (OK reward, w') ->
  length actions = length states /\ length reward = length states.
Proof.
  change (inference (Rank2 states) (Rank2 actions) w)
    with (_inference_body (Rank2 states) (Rank2 actions) w).
  intros E. apply inference_body_ok in E as (p & E & ->).
  apply compute_reward_batch_rows in E as [Len E].
  unfold tf.log, tf.pointwise. rewrite !length_map. now split.
Qed.

(** X12.  [inference] promotes a rank-1 input only beside another rank-1
    input: on a rank-1 array and a rank-2 array, in either order, it raises
    and leaves the world as it is. *)
Theorem inference_mixed_ranks (states actions : ndarray) (w : World L) :
  ndim states <> ndim actions ->
  exists msg,
    inference states actions w = (Err (InvalidArgumentError msg), w).
Proof.
  intros N.
  destruct states as [s|s], actions as [a|a]; simpl in N;
    try (now contradiction N).
  - change (inference (Rank1 s) (Rank2 a) w)
      with (_inference_body (Rank1 s) (Rank2 a) w).
    rewrite inference_body_run. eexists. reflexivity.
  - change (inference (Rank2 s) (Rank1 a) w)
      with (_inference_body (Rank2 s) (Rank1 a) w).
    rewrite inference_body_run. eexists. reflexivity.
Qed.

End Ranks.

Lemma inference_batch_rows_witness :
  exists reward w',
    inference Sample.two_states Sample.two_actions Sample.world0
    = (OK reward, w')
    /\ length reward = 2%nat.
Proof.
  eexists. eexists.
  assert (E : inference (Rank2 [[1]; [0]]) (Rank2 [[0]; [1]]) Sample.world0
              = (OK _, _))
    by (run_program; reflexivity).
  split; [exact E|].
  exact (proj2 (inference_batch_rows _ _ _ _ _ E)).
Defined.

Lemma inference_mixed_ranks_witness :
  exists msg,
    inference (Rank1 [1]) Sample.one_action Sample.world0
    = (Err (InvalidArgumentError msg), Sample.world0).
Proof.
  apply (inference_mixed_ranks (Rank1 [1]) Sample.one_action Sample.world0).
  simpl. lia.
Defined.

(** ** What a training step writes, logs and raises *)

Lemma mean_within (a b : R) (v : vector) :
  v <> [] ->
  Forall (fun x => a <= x <= b) v ->
  a <= tf.reduce_mean1 v <= b.
Proof.
  intros NE F. unfold tf.reduce_mean1.
  assert (Len : 0 < INR (length v)).
  { apply lt_0_INR. destruct v; [contradiction|simpl; lia]. }
  assert (S : a * INR (length v) <= sum v <= b * INR (length v)).
  { clear NE Len. induction F as [|x v [Lo Hi] F IH].
    - simpl. lra.
    - change (sum (x :: v)) with (x + sum v).
      change (length (x :: v)) with (S (length v)). rewrite S_INR. lra. }
  set (n := INR (length v)) in *.
  assert (I : 0 < / n) by now apply Rinv_0_lt_compat.
  assert (E : n * / n = 1) by (apply Rinv_r; lra).
  destruct S as [Lo Hi]. unfold Rdiv. split.
  - replace a with (a * n * / n) by (rewrite Rmult_assoc, E; ring).
    apply Rmult_le_compat_r; lra.
  - replace b with (b * n * / n) by (rewrite Rmult_assoc, E; ring).
    apply Rmult_le_compat_r; lra.
Qed.

Lemma concat_pointwise (f : R -> R) (m : matrix) :
  concat (tf.pointwise f m) = map f (concat m).
Proof. unfold tf.pointwise. now rewrite concat_map. Qed.

Lemma indicator_mean (f : R -> R) (m : matrix) :
  concat m <> [] ->
  (forall x, f x = 0 \/ f x = 1) ->
  0 <= tf.reduce_mean (tf.pointwise f m) <= 1.
Proof.
  intros NE F. unfold tf.reduce_mean. rewrite concat_pointwise.
  apply mean_within.
  - destruct (concat m); [contradiction|discriminate].
  - apply Forall_map, Forall_forall. intros x _.
    destruct (F x) as [-> | ->]; lra.
Qed.

Section Steps.

Context {L : Type} {layer : DenseClass L} {runtime : Runtime L}.

Variables agent_states agent_acts expert_states expert_acts : ndarray.

Local Abbreviation tape d :=
  (_train_body_tape 1e-8 d agent_states agent_acts expert_states expert_acts).
Local Abbreviation step :=
  (_train_body agent_states agent_acts expert_states expert_acts).
Local Abbreviation logged :=
  (train agent_states agent_acts expert_states expert_acts).

(** X7.  A training step that raises, for whatever reason, has written no
    variable of the object and logged nothing, and [train] raises the same
    error from the same world. *)
Theorem train_exception_safe (w w' : World L) (e : error) :
  step w = (Err e, w') ->
  logged w = (Err e, w')
  /\ self w' = self w
  /\ journal w' = journal w
  /\ summaries w' = summaries w.
Proof.
  intros S. split.
  - exact (train_err _ _ _ _ w w' e S).
  - exact (train_body_untouched_on_err _ _ _ _ w w' e S).
Qed.

(** X8.  A call of [train] whose forward passes go through logs five
    scalars, in this order: the loss, the accuracy, the coefficient, the
    mean KL divergence of the expert batch and that of the agent batch.  The
    coefficient it logs is the one the step has just assigned, while the
    loss it logs was computed with the coefficient before the step. *)
Theorem train_summaries (w w1 : World L) (t : TapeValues) :
  tape (disc (self w)) w = (OK t, w1) ->
  let name := policy_name (self w) in
  let accuracy :=
    tf.reduce_mean (tf.cast_ge 0.5 (real_logits t)) / 2
    + tf.reduce_mean (tf.cast_lt 0.5 (fake_logits t)) / 2 in
  let beta :=
    Rmax 0 (_reg_param (self w) + 1e-5 * (kl_loss t - _kl_target (self w))) in
  exists w2,
    logged w = (OK tt, w2)
    /\ summaries w2
       = summaries w
         ++ [ ((name ++ "/DiscriminatorLoss")%string,
               disc_loss t + _reg_param (self w) * kl_loss t);
              ((name ++ "/Accuracy")%string, accuracy);
              ((name ++ "/RegParam")%string, beta);
              ((name ++ "/RealKL")%string, tf.reduce_mean1 (real_kl t));
              ((name ++ "/FakeKL")%string, tf.reduce_mean1 (fake_kl t)) ]
    /\ _reg_param (self w2) = beta.
Proof.
  intros T. simpl.
  destruct (train_body_ok _ _ _ _ w w1 t T)
    as (w' & S & _ & _ & B & _ & P & _ & U & _).
  destruct (tape_losses _ _ _ _ _ _ _ _ T) as (_ & Loss).
  unfold train, bind, get_self, summary_scalar. rewrite S.
  eexists. split; [reflexivity|]. simpl.
  rewrite U, P, <- Loss. unfold tf.maximum, _step_reg_param in B.
  rewrite B, <- !app_assoc. now split.
Qed.

(** X9.  When neither batch's probabilities are empty, the accuracy a
    training step returns lies in [[0, 1]]. *)
Theorem train_body_accuracy (w w1 : World L) (t : TapeValues) :
  tape (disc (self w)) w = (OK t, w1) ->
  concat (real_logits t) <> [] ->
  concat (fake_logits t) <> [] ->
  exists loss accuracy real fake w',
    step w = (OK (loss, accuracy, real, fake), w')
    /\ 0 <= accuracy <= 1.
Proof.
  intros T NR NF.
  destruct (train_body_ok _ _ _ _ w w1 t T) as (w' & S & _).
  do 4 eexists. exists w'. split; [exact S|].
  pose proof (indicator_mean (fun x => if Rle_dec 0.5 x then 1 else 0)
                             (real_logits t) NR) as A.
  pose proof (indicator_mean (fun x => if Rlt_dec x 0.5 then 1 else 0)
                             (fake_logits t) NF) as B.
  unfold tf.cast_ge, tf.cast_lt.
  assert (A' := A (fun x => match Rle_dec 0.5 x with
                            | left _ => or_intror eq_refl
                            | right _ => or_introl eq_refl
                            end)).
  assert (B' := B (fun x => match Rlt_dec x 0.5 with
                            | left _ => or_intror eq_refl
                            | right _ => or_introl eq_refl
                            end)).
  lra.
Qed.

(** X10.  On batches that are not empty and from a coefficient that is
    not negative, a training step whose [kl_loss] is at most [kl_target]
    does not raise the coefficient: the coefficient rises only if [kl_loss]
    exceeds [kl_target]. *)
Theorem reg_param_does_not_rise (w w1 : World L) (t : TapeValues) :
  tape (disc (self w)) w = (OK t, w1) ->
  real_kl t <> [] ->
  fake_kl t <> [] ->
  0 <= _reg_param (self w) ->
  kl_loss t <= _kl_target (self w) ->
  _reg_param (self (snd (step w))) <= _reg_param (self w).
Proof.
  intros T _ _ Pos Below.
  destruct (train_body_ok _ _ _ _ w w1 t T) as (w' & S & _ & _ & B & _).
  rewrite S. simpl. rewrite B.
  unfold tf.maximum, _step_reg_param, Rmax.
  destruct (Rle_dec _ _); lra.
Qed.

Lemma tape_concat_err (d : Discriminator L) (w : World L) :
  (exists e, tf.concat_axis1 [expert_states; expert_acts] = Err e)
  \/ (exists e, tf.concat_axis1 [agent_states; agent_acts] = Err e) ->
  exists msg w',
    tape d w = (Err (InvalidArgumentError msg), w').
Proof.
  intros Bad. unfold _train_body_tape, bind, get_self.
  destruct (call d [expert_states; expert_acts] w)
    as [[[[rl rm] rs]|[msg]] w1] eqn:C1.
  - destruct Bad as [[e Bad]|[[msg] Bad]].
    + rewrite (call_concat_err _ _ _ w Bad) in C1. discriminate.
    + rewrite (call_concat_err _ _ _ w1 Bad). now exists msg, w1.
  - now exists msg, w1.
Qed.

(** X13.  [_train_body] promotes nothing: if one of its four arrays has
    rank 1 it raises, with no variable written. *)
Theorem train_body_rejects_rank1 (w : World L) :
  ndim agent_states = 1%nat \/ ndim agent_acts = 1%nat
  \/ ndim expert_states = 1%nat \/ ndim expert_acts = 1%nat ->
  exists msg w',
    step w = (Err (InvalidArgumentError msg), w')
    /\ self w' = self w
    /\ journal w' = journal w.
Proof.
  intros R1.
  destruct (tape_concat_err (disc (self w)) w) as (msg & w' & T).
  { destruct R1 as [R1|[R1|[R1|R1]]].
    - right. destruct (concat_rank1_err agent_states agent_acts) as (m & E);
        [now left | eexists; exact E].
    - right. destruct (concat_rank1_err agent_states agent_acts) as (m & E);
        [now right | eexists; exact E].
    - left. destruct (concat_rank1_err expert_states expert_acts) as (m & E);
        [now left | eexists; exact E].
    - left. destruct (concat_rank1_err expert_states expert_acts) as (m & E);
        [now right | eexists; exact E]. }
  pose proof (train_body_err _ _ _ _ w w' _ T) as S.
  exists msg, w'. split; [exact S|].
  destruct (train_body_untouched_on_err _ _ _ _ w w' _ S) as (A & B & _).
  now split.
Qed.

(** X19.  A training step raises only if one of its two forward passes
    raises: once the expert pass and then the agent pass have gone through,
    the step goes through. *)
Theorem train_body_succeeds_iff (w : World L) :
  is_err (fst (step w)) = false
  <-> exists rl rm rs w1 fl fm fs w2,
        call (disc (self w)) [expert_states; expert_acts] w
        = (OK (rl, rm, rs), w1)
        /\ call (disc (self w)) [agent_states; agent_acts] w1
           = (OK (fl, fm, fs), w2).
Proof.
  split.
  - intros OKs.
    destruct (tape (disc (self w)) w) as [[t|e] w2] eqn:T.
    + destruct (tape_inv _ _ _ _ _ _ _ _ T)
        as (rl & rm & rs & w1 & fl & fm & fs & C1 & C2).
      now exists rl, rm, rs, w1, fl, fm, fs, w2.
    + rewrite (train_body_err _ _ _ _ w w2 e T) in OKs. discriminate.
  - intros (rl & rm & rs & w1 & fl & fm & fs & w2 & C1 & C2).
    pose proof (tape_run _ _ _ _ _ w w1 w2 _ _ _ _ _ _ C1 C2) as T.
    simpl in T.
    destruct (train_body_ok _ _ _ _ w w2 _ T) as (w' & S & _).
    now rewrite S.
Qed.

End Steps.

Section Journal.

Context {L : Type} {layer : DenseClass L} {runtime : Runtime L}.

Lemma paired_app (l1 l2 : list write) :
  paired l1 -> paired l2 -> paired (l1 ++ l2).
Proof.
  induction 1 as [|g v rest P IH]; intros P2; simpl.
  - exact P2.
  - constructor; auto.
Qed.

Lemma train_writes (a_s a_a e_s e_a : ndarray) (w : World L) :
  let w' := snd (train a_s a_a e_s e_a w) in
  _kl_target (self w') = _kl_target (self w)
  /\ policy_name (self w') = policy_name (self w)
  /\ exists l, journal w' = journal w ++ l /\ paired l.
Proof.
  simpl.
  destruct (train_after_body a_s a_a e_s e_a w) as (-> & -> & _).
  destruct (_train_body_tape 1e-8 (disc (self w)) a_s a_a e_s e_a w)
    as [[t|e] w1] eqn:T.
  - destruct (train_body_ok _ _ _ _ w w1 t T)
      as (w' & S & _ & _ & B & K & P & J & _).
    rewrite S. simpl. repeat split; try assumption.
    eexists. split; [exact J|].
    constructor. constructor.
  - pose proof (train_body_err _ _ _ _ w w1 e T) as S.
    destruct (train_body_untouched_on_err _ _ _ _ w w1 e S) as (A & B & _).
    rewrite S. simpl. rewrite A, B. repeat split.
    exists []. split; [now rewrite app_nil_r | constructor].
Qed.

(** X16.  Over any run of training steps the object's variables are
    written in pairs: an optimizer update, then an assignment of the
    coefficient.  The coefficient is never assigned without an optimizer
    update just before it, and no update goes without an assignment. *)
Theorem journal_paired (w w' : World L) :
  trained w w' ->
  exists l, journal w' = journal w ++ l /\ paired l.
Proof.
  induction 1 as [w | w w1 a_s a_a e_s e_a Run (l & J & P)].
  - exists []. split; [now rewrite app_nil_r | constructor].
  - destruct (train_writes a_s a_a e_s e_a w1) as (_ & _ & l' & J' & P').
    exists (l ++ l'). split.
    + now rewrite J', J, app_assoc.
    + now apply paired_app.
Qed.

(** X17.  No run of training steps changes [kl_target] or the policy's
    name. *)
Theorem training_keeps_configuration (w w' : World L) :
  trained w w' ->
  _kl_target (self w') = _kl_target (self w)
  /\ policy_name (self w') = policy_name (self w).
Proof.
  induction 1 as [w | w w1 a_s a_a e_s e_a Run (K & P)].
  - now split.
  - destruct (train_writes a_s a_a e_s e_a w1) as (K' & P' & _).
    split; congruence.
Qed.

End Journal.

(** Runs the program on the small instance up to the arithmetic. *)
Ltac sample_tape_run :=
  match goal with
  | |- _ = _ => run_program; reflexivity
  end.

Lemma train_exception_safe_witness :
  exists e w',
    _train_body (Rank2 [[1; 1]]) Sample.one_action
                (Rank2 [[1; 1]]) Sample.one_action Sample.world1
    = (Err e, w')
    /\ train (Rank2 [[1; 1]]) Sample.one_action
             (Rank2 [[1; 1]]) Sample.one_action Sample.world1
       = (Err e, w')
    /\ self w' = self Sample.world1.
Proof.
  eexists. eexists.
  assert (S : _train_body (Rank2 [[1; 1]]) Sample.one_action
                          (Rank2 [[1; 1]]) Sample.one_action Sample.world1
              = (Err _, _)) by sample_tape_run.
  split; [exact S|].
  destruct (train_exception_safe _ _ _ _ _ _ _ S) as (T & A & _).
  split; [exact T | exact A].
Defined.

Lemma train_summaries_witness :
  exists w2,
    train Sample.two_states Sample.two_actions
          Sample.two_states Sample.two_actions Sample.world1
    = (OK tt, w2)
    /\ length (summaries w2) = 5%nat.
Proof.
  destruct (sample_tape Sample.idle_runtime tt 0.5 1) as (t & w1 & T & _).
  destruct (train_summaries Sample.two_states Sample.two_actions
                            Sample.two_states Sample.two_actions
                            Sample.world1 w1 t T)
    as (w2 & S & U & _).
  exists w2. split; [exact S|]. rewrite U. reflexivity.
Defined.

Lemma train_body_accuracy_witness :
  exists loss accuracy real fake w',
    _train_body Sample.two_states Sample.two_actions
                Sample.two_states Sample.two_actions Sample.world1
    = (OK (loss, accuracy, real, fake), w')
    /\ 0 <= accuracy <= 1.
Proof.
  assert (T : _train_body_tape 1e-8 (disc (self Sample.world1))
                Sample.two_states Sample.two_actions
                Sample.two_states Sample.two_actions Sample.world1
              = (OK _, _)) by sample_tape_run.
  apply (train_body_accuracy _ _ _ _ _ _ _ T); discriminate.
Defined.

Lemma reg_param_does_not_rise_witness :
  _reg_param
    (self (snd (_train_body Sample.two_states Sample.two_actions
                            Sample.two_states Sample.two_actions
                            Sample.world1)))
  <= _reg_param (self Sample.world1).
Proof.
  assert (T : _train_body_tape 1e-8 (disc (self Sample.world1))
                Sample.two_states Sample.two_actions
                Sample.two_states Sample.two_actions Sample.world1
              = (OK _, _)) by sample_tape_run.
  apply (reg_param_does_not_rise _ _ _ _ Sample.world1 _ _ T);
    try discriminate.
  - change (_reg_param (self Sample.world1)) with 1. lra.
  - change (_kl_target (self Sample.world1)) with 0.5.
    cbv beta iota delta [kl_loss]. sample_arith.
Defined.

Lemma train_body_rejects_rank1_witness :
  exists msg w',
    _train_body (Rank1 [1]) (Rank1 [2]) Sample.two_states Sample.two_actions
                Sample.world0
    = (Err (InvalidArgumentError msg), w').
Proof.
  destruct (train_body_rejects_rank1
              (Rank1 [1]) (Rank1 [2]) Sample.two_states Sample.two_actions
              Sample.world0)
    as (msg & w' & S & _).
  - left. reflexivity.
  - now exists msg, w'.
Defined.

Lemma journal_paired_witness :
  exists l,
    journal (snd (train Sample.two_states Sample.two_actions
                        Sample.two_states Sample.two_actions Sample.world1))
    = journal Sample.world1 ++ l
    /\ paired l.
Proof.
  apply (journal_paired Sample.world1).
  apply trained_next, trained_start.
Defined.

Lemma training_keeps_configuration_witness :
  _kl_target
    (self (snd (train Sample.two_states Sample.two_actions
                      Sample.two_states Sample.two_actions Sample.world1)))
  = _kl_target (self Sample.world1).
Proof.
  refine (proj1 (training_keeps_configuration Sample.world1 _ _)).
  apply trained_next, trained_start.
Defined.

(** ** The sigmoid output head *)

Lemma sigmoid_range (x : R) : 0 < activate sigmoid x < 1.
Proof.
  unfold activate. pose proof (exp_pos (- x)) as E.
  assert (I : 0 < / (1 + exp (- x))) by (apply Rinv_0_lt_compat; lra).
  assert (U : (1 + exp (- x)) * / (1 + exp (- x)) = 1)
    by (apply Rinv_r; lra).
  unfold Rdiv. rewrite Rmult_1_l. split; [exact I | nra].
Qed.

Lemma Dense_sigmoid_range (l : Dense) (x y : matrix) :
  activation_fn l = sigmoid ->
  Dense_call l x = OK y ->
  Forall (Forall (fun p => 0 < p < 1)) y.
Proof.
  intros A. unfold Dense_call. rewrite A.
  destruct (forallb _ x); [|discriminate]. intros [= <-].
  apply Forall_map, Forall_forall. intros r _.
  apply Forall_map, Forall_forall. intros v _. apply sigmoid_range.
Qed.

Lemma log_guard_range (p : R) :
  0 < p < 1 ->
  ln 1e-8 < ln (p + 1e-8) < ln (1 + 1e-8).
Proof.
  intros [Lo Hi]. split; apply ln_increasing; lra.
Qed.

Lemma Dense_sigmoid_unit (l : Dense) (x y : matrix) :
  activation_fn l = sigmoid ->
  Dense_call l x = OK y ->
  Forall (Forall (fun p => 0 <= p <= 1)) y.
Proof.
  intros A E. pose proof (Dense_sigmoid_range l x y A E) as F.
  apply Forall_impl with (2 := F). intros r Fr.
  apply Forall_impl with (2 := Fr). intros p P. lra.
Qed.

Lemma log_guard_unit (p : R) :
  0 <= p <= 1 ->
  ln 1e-8 <= ln (p + 1e-8) <= ln (1 + 1e-8).
Proof.
  intros [[Lo | <-] [Hi | ->]]; split;
    try (left; apply ln_increasing; lra);
    try (right; f_equal; lra).
Qed.

Section Sigmoid.

Context {runtime : Runtime Dense}.

Variable d : Discriminator Dense.
Hypothesis head : activation_fn (l3 d) = sigmoid.

(** X14.  With the sigmoid output head of [Discriminator.__init__], both
    forward paths return probabilities: every entry lies in [[0, 1]]. *)
Theorem forward_probabilities (inputs : list ndarray) :
  (forall p, compute_reward d inputs = OK p ->
             Forall (Forall (fun x => 0 <= x <= 1)) p)
  /\ (forall (w w' : World Dense) out means logstds,
         call d inputs w = (OK (out, means, logstds), w') ->
         Forall (Forall (fun x => 0 <= x <= 1)) out).
Proof.
  split.
  - intros p. unfold compute_reward, rbind.
    destruct (tf.concat_axis1 inputs) as [f0|]; [|discriminate].
    destruct (layer_call (l1 d) f0) as [f1|]; [|discriminate].
    destruct (layer_call (l2 d) f1) as [f2|]; [|discriminate].
    destruct (layer_call (l_mean d) f2) as [m|]; [|discriminate].
    apply (Dense_sigmoid_unit _ _ _ head).
  - intros w w' out means logstds C.
    destruct (call_inv _ _ _ _ _ _ _ C)
      as (f0 & f1 & f2 & raw & sp & la
          & _ & _ & _ & _ & _ & _ & _ & _ & E7 & _).
    exact (Dense_sigmoid_unit _ _ _ head E7).
Qed.

End Sigmoid.

Section SigmoidReward.

Context {runtime : Runtime Dense}.

(** X15.  With the sigmoid output head, every reward that [inference]
    returns lies between [log(1e-8)] and [log(1 + 1e-8)]: the epsilon bounds
    the imitation reward from below. *)
Theorem inference_reward_bounds (states actions : ndarray)
        (w w' : World Dense) (reward : matrix) :
  activation_fn (l3 (disc (self w))) = sigmoid ->
  inference states actions w = (OK reward, w') ->
  Forall (Forall (fun r => ln 1e-8 <= r <= ln (1 + 1e-8))) reward.
Proof.
  intros Head E.
  destruct (inference_run states actions) as (s' & a' & Run).
  rewrite Run in E. apply inference_body_ok in E as (p & E & ->).
  assert (P : Forall (Forall (fun x => 0 <= x <= 1)) p).
  { revert E. unfold compute_reward, rbind.
    destruct (tf.concat_axis1 _) as [f0|]; [|discriminate].
    destruct (layer_call (l1 _) f0) as [f1|]; [|discriminate].
    destruct (layer_call (l2 _) f1) as [f2|]; [|discriminate].
    destruct (layer_call (l_mean _) f2) as [m|]; [|discriminate].
    apply (Dense_sigmoid_unit _ _ _ Head). }
  unfold tf.log, tf.pointwise. rewrite map_map.
  apply Forall_map. apply Forall_impl with (2 := P). intros r Pr.
  rewrite map_map. apply Forall_map. apply Forall_impl with (2 := Pr).
  intros x X. now apply log_guard_unit.
Qed.

End SigmoidReward.

Lemma forward_probabilities_witness :
  exists p,
    compute_reward Sample.disc0 [Sample.two_states; Sample.two_actions] = OK p
    /\ Forall (Forall (fun x => 0 <= x <= 1)) p.
Proof.
  eexists.
  assert (E : compute_reward Sample.disc0
                             [Sample.two_states; Sample.two_actions]
              = OK _) by sample_tape_run.
  split; [exact E|].
  exact (proj1 (forward_probabilities (runtime := Sample.idle_runtime)
                  Sample.disc0 eq_refl _) _ E).
Defined.

Lemma inference_reward_bounds_witness :
  exists reward w',
    inference (Rank1 [1]) (Rank1 [2]) Sample.world0 = (OK reward, w')
    /\ Forall (Forall (fun r => ln 1e-8 <= r <= ln (1 + 1e-8))) reward.
Proof.
  eexists. eexists.
  assert (E : inference (Rank1 [1]) (Rank1 [2]) Sample.world0 = (OK _, _))
    by sample_tape_run.
  split; [exact E|].
  exact (inference_reward_bounds _ _ Sample.world0 _ _ eq_refl E).
Defined.

(** ** The bounds the epsilon gives the adversarial loss *)

Lemma guarded_log_mean (f : R -> R) (m : matrix) :
  concat m <> [] ->
  Forall (Forall (fun p => 1e-8 <= f p <= 1 + 1e-8)) m ->
  ln 1e-8 <= tf.reduce_mean (tf.log (tf.pointwise f m)) <= ln (1 + 1e-8).
Proof.
  intros NE F. unfold tf.reduce_mean, tf.log.
  rewrite !concat_pointwise, map_map.
  apply mean_within.
  - destruct (concat m); [contradiction|discriminate].
  - apply Forall_map. apply Forall_concat in F.
    apply Forall_impl with (2 := F). intros p [Lo Hi].
    split.
    + destruct Lo as [Lo | <-]; [left; apply ln_increasing; lra | right; reflexivity].
    + destruct Hi as [Hi | ->]; [left; apply ln_increasing; lra | right; reflexivity].
Qed.

Section Bounds.

Context {runtime : Runtime Dense}.

Variables agent_states agent_acts expert_states expert_acts : ndarray.

(** X18.  With the sigmoid output head and batches that are not empty, the
    adversarial loss of a training step lies between [-2 * log(1 + 1e-8)]
    and [-2 * log(1e-8)]: the epsilon keeps every logarithm's argument
    between [1e-8] and [1 + 1e-8]. *)
Theorem disc_loss_bounds (d : Discriminator Dense) (w w1 : World Dense)
        (t : TapeValues) :
  activation_fn (l3 d) = sigmoid ->
  _train_body_tape 1e-8 d agent_states agent_acts expert_states expert_acts w
  = (OK t, w1) ->
  concat (real_logits t) <> [] ->
  concat (fake_logits t) <> [] ->
  - 2 * ln (1 + 1e-8) <= disc_loss t <= - 2 * ln 1e-8.
Proof.
  intros Head T.
  destruct (tape_inv _ _ _ _ _ _ _ _ T)
    as (rl & rm & rs & w0 & fl & fm & fs & C1 & C2).
  pose proof (tape_run _ _ _ _ _ w w0 w1 _ _ _ _ _ _ C1 C2) as T'.
  simpl in T'. rewrite T in T'. injection T' as ->. simpl.
  intros NR NF.
  destruct (call_inv _ _ _ _ _ _ _ C1)
    as (? & ? & ? & ? & ? & ? & _ & _ & _ & _ & _ & _ & _ & _ & R7 & _).
  destruct (call_inv _ _ _ _ _ _ _ C2)
    as (? & ? & ? & ? & ? & ? & _ & _ & _ & _ & _ & _ & _ & _ & F7 & _).
  apply (Dense_sigmoid_range _ _ _ Head) in R7, F7.
  pose proof (guarded_log_mean (fun x => x + 1e-8) rl NR) as A.
  pose proof (guarded_log_mean (fun x => 1 - x + 1e-8) fl NF) as B.
  assert (A' : ln 1e-8
               <= tf.reduce_mean (tf.log (tf.pointwise (fun x => x + 1e-8) rl))
               <= ln (1 + 1e-8)).
  { apply A. apply Forall_impl with (2 := R7). intros r Pr.
    apply Forall_impl with (2 := Pr). intros p P. simpl. lra. }
  assert (B' : ln 1e-8
               <= tf.reduce_mean
                    (tf.log (tf.pointwise (fun x => 1 - x + 1e-8) fl))
               <= ln (1 + 1e-8)).
  { apply B. apply Forall_impl with (2 := F7). intros r Pr.
    apply Forall_impl with (2 := Pr). intros p P. simpl. lra. }
  lra.
Qed.

End Bounds.

Lemma disc_loss_bounds_witness :
  exists t w1,
    _train_body_tape 1e-8 Sample.disc0
      Sample.two_states Sample.two_actions Sample.two_states Sample.two_actions
      Sample.world1 = (OK t, w1)
    /\ - 2 * ln (1 + 1e-8) <= disc_loss t <= - 2 * ln 1e-8.
Proof.
  eexists. eexists.
  assert (T : _train_body_tape 1e-8 Sample.disc0
                Sample.two_states Sample.two_actions
                Sample.two_states Sample.two_actions Sample.world1
              = (OK _, _)) by sample_tape_run.
  split; [exact T|].
  apply (disc_loss_bounds _ _ _ _ Sample.disc0 _ _ _ eq_refl T); discriminate.
Defined.
